(** * Clinic appointment queue and voice command matcher of [app.py]

    A shallow embedding of the scheduling code of [src/app.py]
    ([calculate_estimated_time], [reindex_appointments], [is_date_available],
    the booking branch of [patient_dashboard], the completion branch of
    [doctor_dashboard]) and of the voice path ([normalize_text],
    [match_doctor_name], [recognize_and_book]).

    Conventions.
    - A Python [str] is a Rocq [string]; the character classes of
      [str.strip], [str.split], [str.isalnum], [str.lower] and of the digit
      class of [strptime] are those of ASCII text.  The en dash that
      separates the two ends of [available_time] is the three bytes of its
      UTF-8 encoding.
    - Python integers are [Z]; a Python float is a binary64 value of
      [SpecFloat.spec_float], with the operations of [SpecFloat] at
      precision 53.
    - The database is a record of the two tables, rows in insertion order; a
      request handler is a function from the state (and the clock) to an
      outcome and a new state.  An uncaught Python exception is the outcome
      [Raised]. *)

From Stdlib Require Import ZArith List Bool Lia String Ascii.
From Stdlib Require Import Permutation Sorted SpecFloat.
Import ListNotations.

Local Open Scope string_scope.
Local Open Scope Z_scope.

(** ** Strings *)

Definition is_digit (c : ascii) : bool :=
  let n := nat_of_ascii c in (48 <=? n)%nat && (n <=? 57)%nat.

Definition is_lower (c : ascii) : bool :=
  let n := nat_of_ascii c in (97 <=? n)%nat && (n <=? 122)%nat.

Definition is_upper (c : ascii) : bool :=
  let n := nat_of_ascii c in (65 <=? n)%nat && (n <=? 90)%nat.

(** [ch.isalnum()] *)
Definition isalnum (c : ascii) : bool := is_digit c || is_lower c || is_upper c.

(** [ch.isspace()]: tab, line feed, vertical tab, form feed, carriage return,
    the four separators 0x1c-0x1f, and the space. *)
Definition isspace (c : ascii) : bool :=
  let n := nat_of_ascii c in
  ((9 <=? n)%nat && (n <=? 13)%nat) || ((28 <=? n)%nat && (n <=? 32)%nat).

Definition digit_value (c : ascii) : Z := Z.of_nat (nat_of_ascii c) - 48.

Definition lower_char (c : ascii) : ascii :=
  if is_upper c then ascii_of_nat (nat_of_ascii c + 32) else c.

(** [s.lower()] *)
Fixpoint lower (s : string) : string :=
  match s with
  | EmptyString => EmptyString
  | String c r => String (lower_char c) (lower r)
  end.

(** [s.startswith(p)] *)
Fixpoint startswith (p s : string) : bool :=
  match p, s with
  | EmptyString, _ => true
  | String a p', String b s' => Ascii.eqb a b && startswith p' s'
  | String _ _, EmptyString => false
  end.

(** [needle in hay] *)
Fixpoint contains (needle hay : string) : bool :=
  startswith needle hay ||
  match hay with
  | EmptyString => false
  | String _ r => contains needle r
  end.

(** [s.replace(old, "")] for a non-empty [old]: occurrences are taken from the
    left and do not overlap.  [skip] counts the characters of the occurrence
    being removed that are still ahead. *)
Fixpoint remove_from (old s : string) (skip : nat) : string :=
  match s with
  | EmptyString => EmptyString
  | String c r =>
      match skip with
      | S k => remove_from old r k
      | O => if startswith old s
             then remove_from old r (String.length old - 1)
             else String c (remove_from old r O)
      end
  end.

Definition remove_all (old s : string) : string :=
  match old with
  | EmptyString => s
  | _ => remove_from old s O
  end.

(** [s.split(sep)] for a non-empty [sep]: [cur] is the piece being read, in
    reverse. *)
Fixpoint rev_string (acc s : string) : string :=
  match s with
  | EmptyString => acc
  | String c r => rev_string (String c acc) r
  end.

Fixpoint split_from (sep s cur : string) (skip : nat) : list string :=
  match s with
  | EmptyString => [rev_string "" cur]
  | String c r =>
      match skip with
      | S k => split_from sep r cur k
      | O => if startswith sep s
             then rev_string "" cur :: split_from sep r "" (String.length sep - 1)
             else split_from sep r (String c cur) O
      end
  end.

Definition split (sep s : string) : list string := split_from sep s "" O.

(** [s.split()]: the maximal runs of characters that are not whitespace. *)
Fixpoint split_ws_from (s cur : string) : list string :=
  match s with
  | EmptyString =>
      match cur with EmptyString => [] | _ => [rev_string "" cur] end
  | String c r =>
      if isspace c
      then match cur with
           | EmptyString => split_ws_from r ""
           | _ => rev_string "" cur :: split_ws_from r ""
           end
      else split_ws_from r (String c cur)
  end.

Definition split_ws (s : string) : list string := split_ws_from s "".

Fixpoint lstrip (s : string) : string :=
  match s with
  | EmptyString => EmptyString
  | String c r => if isspace c then lstrip r else s
  end.

(** [s.strip()] *)
Definition strip (s : string) : string :=
  rev_string "" (lstrip (rev_string "" (lstrip s))).

(** ["".join(ch for ch in s if keep(ch))] *)
Fixpoint filter_chars (keep : ascii -> bool) (s : string) : string :=
  match s with
  | EmptyString => EmptyString
  | String c r => if keep c then String c (filter_chars keep r) else filter_chars keep r
  end.

(** The separator of [available_time] (U+2013). *)
Definition en_dash : string := "–".

(** ** Dates and times *)

Record pydate := mkDate { year : Z; month : Z; day : Z }.

(** A time of day, as [datetime.time]. *)
Record pytime := mkTime { hour : Z; minute : Z; second : Z; microsecond : Z }.

(** What the clock says: [date.today()] and [datetime.now().time()]. *)
Record clock := mkClock { today : pydate; now_time : pytime }.

Definition is_leap (y : Z) : bool :=
  (y mod 4 =? 0) && (negb (y mod 100 =? 0) || (y mod 400 =? 0)).

Definition days_in_month (y m : Z) : Z :=
  if m =? 2 then (if is_leap y then 29 else 28)
  else if (m =? 4) || (m =? 6) || (m =? 9) || (m =? 11) then 30
  else 31.

Definition valid_date (d : pydate) : bool :=
  (1 <=? year d) && (year d <=? 9999) &&
  (1 <=? month d) && (month d <=? 12) &&
  (1 <=? day d) && (day d <=? days_in_month (year d) (month d)).

(** Order of dates: [selected < today], [selected == today]. *)
Definition date_ltb (a b : pydate) : bool :=
  (year a <? year b) ||
  ((year a =? year b) &&
   ((month a <? month b) || ((month a =? month b) && (day a <? day b)))).
Definition date_eqb (a b : pydate) : bool :=
  (year a =? year b) && (month a =? month b) && (day a =? day b).

(** Order of times of day: [now_time < end_time]. *)
Definition time_ltb (a b : pytime) : bool :=
  (hour a <? hour b) ||
  ((hour a =? hour b) &&
   ((minute a <? minute b) ||
    ((minute a =? minute b) &&
     ((second a <? second b) ||
      ((second a =? second b) && (microsecond a <? microsecond b)))))).

(** [today + timedelta(days=1)]; [None] is the [OverflowError] past
    9999-12-31. *)
Definition plus_one_day (d : pydate) : option pydate :=
  if day d <? days_in_month (year d) (month d)
  then Some (mkDate (year d) (month d) (day d + 1))
  else if month d <? 12 then Some (mkDate (year d) (month d + 1) 1)
  else if year d <? 9999 then Some (mkDate (year d + 1) 1 1)
  else None.

Definition digit_char (n : Z) : ascii := ascii_of_nat (Z.to_nat (48 + n mod 10)).

(** Two decimal digits, as [%02d] prints a number below 100. *)
Definition two_digits (n : Z) : string :=
  String (digit_char (n / 10)) (String (digit_char n) "").

Definition four_digits (n : Z) : string :=
  String (digit_char (n / 1000)) (String (digit_char (n / 100))
    (String (digit_char (n / 10)) (String (digit_char n) ""))).

(** [str(d)], the ISO form [YYYY-MM-DD]. *)
Definition str_date (d : pydate) : string :=
  (four_digits (year d) ++ "-" ++ two_digits (month d) ++ "-" ++ two_digits (day d))%string.

(** [datetime.strptime(s, "%H:%M")] as the hour and the minute it reads, [None]
    for its [ValueError].  The directive [%H] is the pattern
    [2[0-3]|[0-1]\d|\d], [%M] is [[0-5]\d|\d], and the whole string must be
    used up. *)
Definition hour2 (a b : ascii) : option Z :=
  if is_digit a && is_digit b && (digit_value a * 10 + digit_value b <=? 23)
  then Some (digit_value a * 10 + digit_value b) else None.

Definition hour1 (a : ascii) : option Z :=
  if is_digit a then Some (digit_value a) else None.

Definition minute2 (a b : ascii) : option Z :=
  if is_digit a && is_digit b && (digit_value a <=? 5)
  then Some (digit_value a * 10 + digit_value b) else None.

Definition minute1 (a : ascii) : option Z :=
  if is_digit a then Some (digit_value a) else None.

Definition both {A B : Type} (x : option A) (y : option B) : option (A * B) :=
  match x, y with
  | Some a, Some b => Some (a, b)
  | _, _ => None
  end.

Definition strptime_HM (s : string) : option (Z * Z) :=
  match list_ascii_of_string s with
  | [h1; h2; c; m1; m2] =>
      if Ascii.eqb c ":" then both (hour2 h1 h2) (minute2 m1 m2) else None
  | [a; b; c; d] =>
      if Ascii.eqb c ":" then both (hour2 a b) (minute1 d)
      else if Ascii.eqb b ":" then both (hour1 a) (minute2 c d)
      else None
  | [h1; c; m1] =>
      if Ascii.eqb c ":" then both (hour1 h1) (minute1 m1) else None
  | _ => None
  end.

(** [datetime.strptime(s, "%Y-%m-%d").date()], [None] for its [ValueError].
    [%Y] is four digits, [%m] is [1[0-2]|0[1-9]|[1-9]], [%d] is
    [3[01]|[12]\d|0[1-9]|[1-9]| [1-9]]; the date must exist. *)
Definition month_of (cs : list ascii) : option Z :=
  match cs with
  | [a; b] =>
      if is_digit a && is_digit b then
        let v := digit_value a * 10 + digit_value b in
        if (1 <=? v) && (v <=? 12) then Some v else None
      else None
  | [a] => if is_digit a && (1 <=? digit_value a) then Some (digit_value a) else None
  | _ => None
  end.

Definition day_of (cs : list ascii) : option Z :=
  match cs with
  | [a; b] =>
      if is_digit a && is_digit b then
        let v := digit_value a * 10 + digit_value b in
        if (1 <=? v) && (v <=? 31) then Some v else None
      else if Ascii.eqb a " " && is_digit b && (1 <=? digit_value b)
      then Some (digit_value b) else None
  | [a] => if is_digit a && (1 <=? digit_value a) then Some (digit_value a) else None
  | _ => None
  end.

Definition year_of (cs : list ascii) : option Z :=
  match cs with
  | [a; b; c; d] =>
      if is_digit a && is_digit b && is_digit c && is_digit d
      then Some (((digit_value a * 10 + digit_value b) * 10 + digit_value c) * 10
                 + digit_value d)
      else None
  | _ => None
  end.

Definition strptime_date (s : string) : option pydate :=
  match split "-" s with
  | [y; m; d] =>
      match year_of (list_ascii_of_string y),
            month_of (list_ascii_of_string m),
            day_of (list_ascii_of_string d) with
      | Some yv, Some mv, Some dv =>
          let r := mkDate yv mv dv in
          if valid_date r then Some r else None
      | _, _, _ => None
      end
  | _ => None
  end.

(** ** The two tables *)

(** A row of [User]; the columns the scheduling code reads.  [available_time]
    is nullable and tested for it by the code. *)
Record User := mkUser {
  user_id : Z;
  name : string;
  role : string;
  availability : bool;
  available_time : option string;
  max_patients : Z;
  avg_consult_time : Z
}.

Inductive Status := Pending | Completed.

Definition status_eqb (a b : Status) : bool :=
  match a, b with
  | Pending, Pending | Completed, Completed => true
  | _, _ => false
  end.

(** A row of [Appointment].  [date] is the string the booking stored;
    [created_at] is the UTC instant of the insertion, in microseconds. *)
Record Appointment := mkAppointment {
  appt_id : Z;
  appointment_number : Z;
  patient_id : Z;
  doctor_id : Z;
  date : string;
  status : Status;
  prescription : option string;
  pharmacy_status : string;
  estimated_time : string;
  created_at : Z
}.

(** ** [calculate_estimated_time] *)

(** [date(1900, 1, 1).toordinal()], the day [strptime] gives a time of day;
    [date.max.toordinal()]; the largest number of days of a [timedelta]. *)
Definition ordinal_1900 : Z := 693596.
Definition max_ordinal : Z := 3652059.
Definition max_timedelta_days : Z := 999999999.

(** [start_dt + timedelta(minutes=k)] for [start_dt] at [start] minutes after
    midnight of 1900-01-01: the minutes elapsed since that midnight, or [None]
    for the [OverflowError] of a [timedelta] or of a [datetime] out of
    range. *)
Definition add_minutes (start k : Z) : option Z :=
  if (Z.abs (k / 1440) <=? max_timedelta_days)
     && (0 <? ordinal_1900 + (start + k) / 1440)
     && (ordinal_1900 + (start + k) / 1440 <=? max_ordinal)
  then Some (start + k) else None.

(** [dt.strftime("%I:%M %p")] for a [datetime] given by its minutes since a
    midnight. *)
Definition strftime_I_M_p (t : Z) : string :=
  let h := (t mod 1440) / 60 in
  let m := t mod 60 in
  let h12 := if h mod 12 =? 0 then 12 else h mod 12 in
  let suffix := if h <? 12 then "AM" else "PM" in
  (two_digits h12 ++ ":" ++ two_digits m ++ " " ++ suffix)%string.

(** The start of the window, in minutes after midnight:
    [strptime(available_time.split(DASH)[0].strip(), "%H:%M")]. *)
Definition window_start (doctor : User) : option Z :=
  match available_time doctor with
  | None => None
  | Some w =>
      match strptime_HM (strip (hd "" (split en_dash w))) with
      | Some (h, m) => Some (h * 60 + m)
      | None => None
      end
  end.

(** The [datetime] the [try] block computes, [None] when it raises. *)
Definition estimated_dt (doctor : User) (queue_position : Z) : option Z :=
  match window_start doctor with
  | Some start => add_minutes start ((queue_position - 1) * avg_consult_time doctor)
  | None => None
  end.

Definition is_empty (s : string) : bool :=
  match s with EmptyString => true | _ => false end.

Definition calculate_estimated_time (doctor : User) (queue_position : Z) : string :=
  match available_time doctor with
  | None => "N/A"
  | Some w =>
      if is_empty w then "N/A"
      else match estimated_dt doctor queue_position with
           | Some t => strftime_I_M_p t
           | None => "N/A"
           end
  end.

(** The time of day of the estimate, in minutes after midnight. *)
Definition estimated_minute (doctor : User) (queue_position : Z) : option Z :=
  match estimated_dt doctor queue_position with
  | Some t => Some (t mod 1440)
  | None => None
  end.

(** ** [is_date_available] *)

(** What a call gives: the value it returns, or an exception it lets out. *)
Inductive result (A : Type) : Type :=
| Returned (a : A)
| Raised.
Arguments Returned {A} a.
Arguments Raised {A}.

(** The end of the window, as the [try] block reads it:
    [strptime(available_time.split(DASH)[-1].strip(), "%H:%M").time()];
    [None] when the block raises. *)
Definition window_end (doctor : User) : option pytime :=
  match available_time doctor with
  | None => None
  | Some w =>
      match strptime_HM (strip (last (split en_dash w) "")) with
      | Some (h, m) => Some (mkTime h m 0 0)
      | None => None
      end
  end.

Definition is_date_available (clk : clock) (doctor : User) (selected_date : string)
  : result bool :=
  match strptime_date selected_date with
  | None => Raised
  | Some selected =>
      if date_ltb selected (today clk) then Returned false
      else if date_eqb selected (today clk) then
        match window_end doctor with
        | Some end_time => Returned (time_ltb (now_time clk) end_time)
        | None => Returned true
        end
      else Returned true
  end.

(** ** The database *)

Record state := mkState { users : list User; appointments : list Appointment }.

(** [User.query.get(id)] *)
Definition get_user (st : state) (id : Z) : option User :=
  find (fun u => user_id u =? id) (users st).

(** The rows of one doctor and one date that are Pending: the filter of
    [filter_by(doctor_id=..., date=..., status="Pending")]. *)
Definition in_partition (doctor : Z) (day_str : string) (a : Appointment) : bool :=
  (doctor_id a =? doctor) && String.eqb (date a) day_str && status_eqb (status a) Pending.

(** [filter_by(patient_id=..., doctor_id=..., date=...)], whatever the status. *)
Definition same_booking (patient doctor : Z) (day_str : string) (a : Appointment) : bool :=
  (patient_id a =? patient) && (doctor_id a =? doctor) && String.eqb (date a) day_str.

Definition pending_count (doctor : Z) (day_str : string) (appts : list Appointment) : Z :=
  Z.of_nat (List.length (filter (in_partition doctor day_str) appts)).

(** The primary key of a new row: one past the largest in the table. *)
Definition next_id (appts : list Appointment) : Z :=
  1 + fold_right (fun a m => Z.max (appt_id a) m) 0 appts.

(** [Appointment(appointment_number=..., patient_id=..., doctor_id=...,
    date=..., estimated_time=...)] once added and committed: the other
    columns take their defaults. *)
Definition new_appointment (appts : list Appointment) (utcnow : Z)
    (queue_position patient doctor : Z) (day_str est : string) : Appointment :=
  mkAppointment (next_id appts) queue_position patient doctor day_str
                Pending None "Not Processed" est utcnow.

(** ** The booking branch of [patient_dashboard] *)

(** What a posted booking form comes to, for a logged-in patient; each refusal
    is named after the outcome of the specification, with its message. *)
Inductive booking_outcome :=
| DoctorUnavailable     (* "Doctor not found." *)
| DateNotBookable       (* "You cannot book this date. ..." *)
| DuplicateBooking      (* "You already have an appointment with this doctor that day." *)
| CapacityExceeded      (* "Doctor's schedule is full for that day." *)
| Booked (a : Appointment)
| BookingRaised.        (* an exception left the handler *)

Definition patient_dashboard_post (st : state) (clk : clock) (utcnow : Z)
    (patient doctor_id : Z) (date_selected : string) : booking_outcome * state :=
  match get_user st doctor_id with
  | None => (DoctorUnavailable, st)
  | Some doctor =>
      match is_date_available clk doctor date_selected with
      | Raised => (BookingRaised, st)
      | Returned false => (DateNotBookable, st)
      | Returned true =>
          if existsb (same_booking patient doctor_id date_selected) (appointments st)
          then (DuplicateBooking, st)
          else
            let count := pending_count doctor_id date_selected (appointments st) in
            if max_patients doctor <=? count then (CapacityExceeded, st)
            else
              let queue_position := count + 1 in
              let estimated := calculate_estimated_time doctor queue_position in
              let appointment :=
                new_appointment (appointments st) utcnow queue_position patient
                                doctor_id date_selected estimated in
              (Booked appointment,
               mkState (users st) (appointments st ++ [appointment]))
      end
  end.

(** ** [reindex_appointments] *)

(** Rows are objects of the session: the query gives references to them, and
    the loop writes through the references.  A reference is the place of the
    row in the table. *)
Abbreviation row := nat (only parsing).

Fixpoint update_row (r : row) (f : Appointment -> Appointment) (appts : list Appointment)
  : list Appointment :=
  match appts, r with
  | [], _ => []
  | a :: rest, O => f a :: rest
  | a :: rest, S k => a :: update_row k f rest
  end.

(** The references to the rows that pass [keep], in table order. *)
Fixpoint select_from (keep : Appointment -> bool) (appts : list Appointment) (r : row)
  : list row :=
  match appts with
  | [] => []
  | a :: rest => if keep a then r :: select_from keep rest (S r)
                 else select_from keep rest (S r)
  end.

Definition select (keep : Appointment -> bool) (appts : list Appointment) : list row :=
  select_from keep appts O.

(** A row to read where a reference points at nothing. *)
Definition no_row : Appointment :=
  mkAppointment 0 0 0 0 "" Completed None "" "" 0.

(** The row a reference points at. *)
Definition row_at (appts : list Appointment) (r : row) : Appointment := nth r appts no_row.

Definition created_of (appts : list Appointment) (r : row) : Z :=
  created_at (row_at appts r).

(** [order_by(Appointment.created_at)]: rows with equal time stamps stay in
    table order. *)
Fixpoint insert_by (key : row -> Z) (r : row) (sorted : list row) : list row :=
  match sorted with
  | [] => [r]
  | x :: rest => if key r <=? key x then r :: sorted else x :: insert_by key r rest
  end.

Definition order_by (key : row -> Z) (rs : list row) : list row :=
  fold_right (fun r acc => insert_by key r acc) [] rs.

Definition renumber (doctor : User) (i : Z) (a : Appointment) : Appointment :=
  mkAppointment (appt_id a) i (patient_id a) (doctor_id a) (date a) (status a)
                (prescription a) (pharmacy_status a)
                (calculate_estimated_time doctor i) (created_at a).

(** [for i, appt in enumerate(appointments, start=1): ...] *)
Fixpoint reindex_loop (doctor : User) (rs : list row) (i : Z) (appts : list Appointment)
  : list Appointment :=
  match rs with
  | [] => appts
  | r :: rest => reindex_loop doctor rest (i + 1) (update_row r (renumber doctor i) appts)
  end.

(** [reindex_appointments(doctor_id, date)], with [doctor] the row of that id:
    every row the query selects has this [doctor_id], so [appt.doctor] is
    this row. *)
Definition reindex_appointments (doctor : User) (day_str : string)
    (appts : list Appointment) : list Appointment :=
  let pending :=
    order_by (created_of appts) (select (in_partition (user_id doctor) day_str) appts) in
  reindex_loop doctor pending 1 appts.

(** ** The completion branch of [doctor_dashboard] *)

(** [Appointment.query.get(id)]: the row of that primary key. *)
Fixpoint get_appointment_from (id : Z) (appts : list Appointment) (r : row) : option row :=
  match appts with
  | [] => None
  | a :: rest => if appt_id a =? id then Some r else get_appointment_from id rest (S r)
  end.

Definition get_appointment (id : Z) (appts : list Appointment) : option row :=
  get_appointment_from id appts O.

Definition complete (text : string) (a : Appointment) : Appointment :=
  mkAppointment (appt_id a) (appointment_number a) (patient_id a) (doctor_id a) (date a)
                Completed (Some text) (pharmacy_status a) (estimated_time a) (created_at a).

(** The [send_prescription] form posted by [current_user], a logged-in user
    whose role is doctor. *)
Definition doctor_dashboard_post (st : state) (current_user : User)
    (appointment_id : Z) (text : string) : state :=
  match get_appointment appointment_id (appointments st) with
  | None => st
  | Some r =>
      let appts1 := update_row r (complete text) (appointments st) in
      let appointment := row_at appts1 r in
      mkState (users st) (reindex_appointments current_user (date appointment) appts1)
  end.

(** ** Floats *)

(** A Python float: a binary64 value. *)
Definition pyfloat : Type := spec_float.

Definition float_add : pyfloat -> pyfloat -> pyfloat := SFadd 53 1024.
Definition float_mul : pyfloat -> pyfloat -> pyfloat := SFmul 53 1024.
Definition float_div : pyfloat -> pyfloat -> pyfloat := SFdiv 53 1024.
Definition float_ltb : pyfloat -> pyfloat -> bool := SFltb.
Definition float_leb : pyfloat -> pyfloat -> bool := SFleb.

(** The float nearest to an integer. *)
Definition float_of_int (n : Z) : pyfloat := binary_normalize 53 1024 n 0 false.

(** The literal [0.4], 0x1.999999999999ap-2, and the initial [0]. *)
Definition float_0_4 : pyfloat := S754_finite false 7205759403792794 (-54).
Definition float_0 : pyfloat := S754_zero false.
Definition float_1 : pyfloat := S754_finite false 4503599627370496 (-52).
Definition float_2 : pyfloat := S754_finite false 4503599627370496 (-51).

(** ** [normalize_text] *)

Definition filler_words : list string :=
  ["doctor"; "dr."; "dr"; "appointment"; "book"; "with"; "for"].

Definition normalize_text (text : string) : string :=
  let text := fold_left (fun t word => remove_all word t) filler_words (lower text) in
  strip (filter_chars (fun ch => isalnum ch || isspace ch) text).

(** ** [match_doctor_name] *)

Section Matcher.

(** [SequenceMatcher(None, a, b).ratio()] of Python's [difflib]. *)
Variable ratio : string -> string -> pyfloat.

(** Whether the first or the last word of the name is in the command;
    [Raised] is the [IndexError] of a name with no word in it. *)
Definition name_in_command (d : User) (command_clean : string) : result bool :=
  match split_ws (lower (name d)) with
  | [] => Raised
  | first :: others =>
      Returned (contains first command_clean
                || contains (last (first :: others) "") command_clean)
  end.

(** The score of a doctor: the ratio, and 0.4 more when a word of the name
    is in the command. *)
Definition score (command_clean : string) (d : User) : result pyfloat :=
  let doc_clean := normalize_text (name d) in
  let r := ratio doc_clean command_clean in
  match name_in_command d command_clean with
  | Raised => Raised
  | Returned true => Returned (float_add r float_0_4)
  | Returned false => Returned r
  end.

(** The loop over the doctors, from the best match and the highest score so
    far. *)
Fixpoint match_loop (doctors : list User) (command_clean : string)
    (best_match : option User) (highest_score : pyfloat)
  : result (option User * pyfloat) :=
  match doctors with
  | [] => Returned (best_match, highest_score)
  | d :: rest =>
      match score command_clean d with
      | Raised => Raised
      | Returned r =>
          if float_ltb highest_score r
          then match_loop rest command_clean (Some d) r
          else match_loop rest command_clean best_match highest_score
      end
  end.

(** The doctors of the table, in table order. *)
Definition doctors_of (st : state) : list User :=
  filter (fun u => String.eqb (role u) "doctor") (users st).

Definition match_doctor_name (doctors : list User) (command : string)
  : result (option User) :=
  match match_loop doctors (normalize_text command) None float_0 with
  | Raised => Raised
  | Returned (Some d, highest_score) =>
      if float_leb float_0_4 highest_score then Returned (Some d) else Returned None
  | Returned (None, _) => Returned None
  end.

(** ** [recognize_and_book] *)

(** The date of the booking, from the words of the command. *)
Definition resolve_relative_date (command : string) (today : pydate) : option pydate :=
  if contains "tomorrow" command then plus_one_day today
  else if contains "today" command || contains "aaj" command then Some today
  else plus_one_day today.

Definition stop_words : list string := ["stop"; "exit"; "cancel"; "close"].

(** What one turn of the loop comes to. *)
Inductive voice_outcome :=
| NotUnderstood         (* the recognizer raised UnknownValueError; the loop goes on *)
| SessionStopped        (* a stop word; the loop ends *)
| DoctorNotFound        (* no doctor matched; the loop goes on *)
| ScheduleFull          (* the doctor has no room; the loop goes on *)
| VoiceBooked (a : Appointment)   (* the loop ends *)
| VoiceError.           (* an exception, caught by the loop, which goes on *)

(** One turn of the loop: [heard] is what the recognizer returns, [None] for
    its [UnknownValueError]. *)
Definition voice_turn (st : state) (day : pydate) (utcnow : Z) (patient : Z)
    (heard : option string) : voice_outcome * state :=
  match heard with
  | None => (NotUnderstood, st)
  | Some text =>
      let command := lower text in
      if existsb (fun word => contains word command) stop_words
      then (SessionStopped, st)
      else
        match match_doctor_name (doctors_of st) command with
        | Raised => (VoiceError, st)
        | Returned None => (DoctorNotFound, st)
        | Returned (Some matched_doctor) =>
            match resolve_relative_date command day with
            | None => (VoiceError, st)
            | Some date_selected =>
                let day_str := str_date date_selected in
                let count :=
                  pending_count (user_id matched_doctor) day_str (appointments st) in
                if max_patients matched_doctor <=? count then (ScheduleFull, st)
                else
                  let queue_position := count + 1 in
                  let estimated :=
                    calculate_estimated_time matched_doctor queue_position in
                  let appointment :=
                    new_appointment (appointments st) utcnow queue_position patient
                                    (user_id matched_doctor) day_str estimated in
                  (VoiceBooked appointment,
                   mkState (users st) (appointments st ++ [appointment]))
            end
        end
  end.

(** The loop, over what the recognizer hears turn after turn, each with the
    day and the instant of the turn. *)
Fixpoint recognize_and_book (st : state) (patient : Z)
    (turns : list (pydate * Z * option string)) : option voice_outcome * state :=
  match turns with
  | [] => (None, st)
  | (day, utcnow, heard) :: rest =>
      match voice_turn st day utcnow patient heard with
      | (SessionStopped, st') => (Some SessionStopped, st')
      | (VoiceBooked a, st') => (Some (VoiceBooked a), st')
      | (_, st') => recognize_and_book st' patient rest
      end
  end.

End Matcher.

(** ** The ratio of [difflib] *)

Fixpoint common_prefix (a b : list ascii) : nat :=
  match a, b with
  | x :: a', y :: b' => if Ascii.eqb x y then S (common_prefix a' b') else O
  | _, _ => O
  end.

(** [find_longest_match]: the longest block common to [a] and [b], the one
    that starts earliest in [a], and of those the one that starts earliest in
    [b]; as [(i, j, k)], the two starts and the length. *)
Fixpoint longest_at (a_tail b : list ascii) (i j : nat) (best : nat * nat * nat)
  : nat * nat * nat :=
  match b with
  | [] => best
  | _ :: b' =>
      let k := common_prefix a_tail b in
      longest_at a_tail b' i (S j) (if (snd best <? k)%nat then (i, j, k) else best)
  end.

Fixpoint longest_from (a b : list ascii) (i : nat) (best : nat * nat * nat)
  : nat * nat * nat :=
  match a with
  | [] => best
  | _ :: a' => longest_from a' b (S i) (longest_at a b i O best)
  end.

Definition find_longest_match (a b : list ascii) : nat * nat * nat :=
  longest_from a b O (O, O, O).

(** The total size of the blocks of [get_matching_blocks]: the longest block,
    then the same to its left and to its right. *)
Fixpoint matching_size (fuel : nat) (a b : list ascii) : nat :=
  match fuel with
  | O => O
  | S fuel' =>
      let '(i, j, k) := find_longest_match a b in
      match k with
      | O => O
      | _ => (k + matching_size fuel' (firstn i a) (firstn j b)
              + matching_size fuel' (skipn (i + k) a) (skipn (j + k) b))%nat
      end
  end.

(** [SequenceMatcher(None, a, b).ratio()], that is [2.0 * matches / length]
    and [1.0] for two empty strings, for a [b] of fewer than 200 characters
    (from 200 on [difflib] sets frequent characters aside). *)
Definition SequenceMatcher_ratio (a b : string) : pyfloat :=
  let la := list_ascii_of_string a in
  let lb := list_ascii_of_string b in
  let matches := matching_size (S (List.length la)) la lb in
  let length := (List.length la + List.length lb)%nat in
  match length with
  | O => float_1
  | _ => float_div (float_mul float_2 (float_of_int (Z.of_nat matches)))
                   (float_of_int (Z.of_nat length))
  end.

(** ** [valid_email] *)

(** The patterns of [re] that the application writes: a character class, a
    sequence, a choice, a repetition. *)
Inductive regex :=
| Void
| Eps
| Class (p : ascii -> bool)
| Seq (r1 r2 : regex)
| Alt (r1 r2 : regex)
| Star (r : regex).

Fixpoint nullable (r : regex) : bool :=
  match r with
  | Void => false
  | Eps => true
  | Class _ => false
  | Seq r1 r2 => nullable r1 && nullable r2
  | Alt r1 r2 => nullable r1 || nullable r2
  | Star _ => true
  end.

(** What is left of a pattern once the character [c] is read. *)
Fixpoint derive (c : ascii) (r : regex) : regex :=
  match r with
  | Void => Void
  | Eps => Void
  | Class p => if p c then Eps else Void
  | Seq r1 r2 =>
      if nullable r1 then Alt (Seq (derive c r1) r2) (derive c r2)
      else Seq (derive c r1) r2
  | Alt r1 r2 => Alt (derive c r1) (derive c r2)
  | Star r1 => Seq (derive c r1) (Star r1)
  end.

(** Whether the whole string matches the pattern. *)
Fixpoint fullmatch (r : regex) (s : string) : bool :=
  match s with
  | EmptyString => nullable r
  | String c rest => fullmatch (derive c r) rest
  end.

(** [r+] and [r{2,}] *)
Definition one_or_more (r : regex) : regex := Seq r (Star r).
Definition two_or_more (r : regex) : regex := Seq r (Seq r (Star r)).

Definition is_letter (c : ascii) : bool := is_lower c || is_upper c.

(** [[a-zA-Z0-9._%+-]] and [[a-zA-Z0-9.-]] *)
Definition local_char (c : ascii) : bool :=
  is_letter c || is_digit c || Ascii.eqb c "." || Ascii.eqb c "_" || Ascii.eqb c "%"
  || Ascii.eqb c "+" || Ascii.eqb c "-".

Definition domain_char (c : ascii) : bool :=
  is_letter c || is_digit c || Ascii.eqb c "." || Ascii.eqb c "-".

Definition newline : ascii := "010".

(** [$]: the end of the string, or the newline that ends it. *)
Definition end_of_string : regex := Alt Eps (Class (Ascii.eqb newline)).

(** [^[a-zA-Z0-9._%+-]+@[a-zA-Z0-9.-]+\.[a-zA-Z]{2,}$] *)
Definition email_pattern : regex :=
  Seq (one_or_more (Class local_char))
      (Seq (Class (Ascii.eqb "@"))
           (Seq (one_or_more (Class domain_char))
                (Seq (Class (Ascii.eqb "."))
                     (Seq (two_or_more (Class is_letter)) end_of_string)))).

(** [re.match(pattern, email) is not None] *)
Definition valid_email (email : string) : bool := fullmatch email_pattern email.

(** ** Accounts: [register], [login] and [index] *)

(** A row of [User] with the columns of the account. *)
Record Account := mkAccount {
  user_row : User;
  email : string;
  password_hash : string;
  specialty : option string
}.

(** The key of a new user: one past the largest in the table. *)
Definition next_user_id (accts : list Account) : Z :=
  1 + fold_right (fun a m => Z.max (user_id (user_row a)) m) 0 accts.

(** [User.query.filter_by(email=email).first()] *)
Definition find_by_email (accts : list Account) (address : string) : option Account :=
  find (fun a => String.eqb (email a) address) accts.

(** The dashboard of a role, [None] when the role has none. *)
Definition dashboard_of (role_name : string) : option string :=
  if String.eqb role_name "patient" then Some "patient_dashboard"
  else if String.eqb role_name "doctor" then Some "doctor_dashboard"
  else if String.eqb role_name "pharmacist" then Some "pharmacist_dashboard"
  else None.

(** [index]: the page a visitor is sent to, [None] for a visitor who is not
    logged in. *)
Definition index (current_user : option Account) : string :=
  match current_user with
  | Some a =>
      match dashboard_of (role (user_row a)) with
      | Some page => page
      | None => "login"
      end
  | None => "login"
  end.

Inductive register_outcome :=
| InvalidEmail          (* "Please enter a valid email address." *)
| EmailTaken            (* "Email already registered." *)
| Registered (a : Account).

Inductive login_outcome :=
| InvalidFormat         (* "Invalid email format." *)
| InvalidCredentials    (* "Invalid credentials or role mismatch" *)
| LoggedIn (a : Account) (page : string).

Section Accounts.

(** [generate_password_hash], with the salt it draws, and
    [check_password_hash] of [werkzeug.security]. *)
Variable generate_password_hash : string -> string -> string.
Variable check_password_hash : string -> string -> bool.

(** The form of [register], posted. *)
Definition register (accts : list Account) (salt name_field email_field
    password_field role_field : string) (specialty_field : option string)
  : register_outcome * list Account :=
  let address := lower email_field in
  let role_name := lower role_field in
  let specialty_name :=
    if String.eqb role_name "doctor" then specialty_field else None in
  if negb (valid_email address) then (InvalidEmail, accts)
  else
    match find_by_email accts address with
    | Some _ => (EmailTaken, accts)
    | None =>
        let user :=
          mkAccount (mkUser (next_user_id accts) name_field role_name true
                            (Some "09:00–17:00") 5 15)
                    address (generate_password_hash salt password_field)
                    specialty_name in
        (Registered user, (accts ++ [user])%list)
    end.

(** The form of [login], posted: the user logged in and the page shown. *)
Definition login (accts : list Account) (email_field password_field role_field : string)
  : login_outcome :=
  let address := lower email_field in
  let role_name := lower role_field in
  if negb (valid_email address) then InvalidFormat
  else
    match find_by_email accts address with
    | None => InvalidCredentials
    | Some user =>
        if negb (check_password_hash (password_hash user) password_field)
           || negb (String.eqb (role (user_row user)) role_name)
        then InvalidCredentials
        else LoggedIn user
                      match dashboard_of (role (user_row user)) with
                      | Some page => page
                      | None => "login"
                      end
    end.

End Accounts.

(** ** The pages and the form of the pharmacist *)

(** [order_by]: rows that compare equal stay in table order. *)
Fixpoint insert_row (le : Appointment -> Appointment -> bool) (a : Appointment)
    (sorted : list Appointment) : list Appointment :=
  match sorted with
  | [] => [a]
  | x :: rest => if le a x then a :: sorted else x :: insert_row le a rest
  end.

Definition sort_rows (le : Appointment -> Appointment -> bool) (l : list Appointment)
  : list Appointment :=
  fold_right (insert_row le) [] l.

(** [order_by(Appointment.appointment_number)] and
    [order_by(Appointment.date.desc())] *)
Definition by_number (a b : Appointment) : bool :=
  appointment_number a <=? appointment_number b.

Definition by_date_desc (a b : Appointment) : bool := String.leb (date b) (date a).

(** The page of [patient_dashboard]: the doctors offered and the appointments
    of the patient. *)
Definition patient_dashboard_doctors (st : state) : list User :=
  filter (fun u => String.eqb (role u) "doctor" && availability u) (users st).

Definition patient_dashboard_appointments (st : state) (patient : Z) : list Appointment :=
  sort_rows by_date_desc (filter (fun a => patient_id a =? patient) (appointments st)).

(** The page of [doctor_dashboard]: the Pending appointments of the doctor. *)
Definition doctor_dashboard_get (st : state) (current_user : User) : list Appointment :=
  sort_rows by_number
            (filter (fun a => (doctor_id a =? user_id current_user)
                              && status_eqb (status a) Pending)
                    (appointments st)).

(** [Appointment.prescription.isnot(None)] *)
Definition has_prescription (a : Appointment) : bool :=
  match prescription a with
  | Some _ => true
  | None => false
  end.

(** The page of [pharmacist_dashboard]. *)
Definition pharmacist_dashboard_get (st : state) : list Appointment :=
  sort_rows by_date_desc (filter has_prescription (appointments st)).

Definition set_pharmacy_status (text : string) (a : Appointment) : Appointment :=
  mkAppointment (appt_id a) (appointment_number a) (patient_id a) (doctor_id a) (date a)
                (status a) (prescription a) text (estimated_time a) (created_at a).

(** The form of [pharmacist_dashboard], posted. *)
Definition pharmacist_dashboard_post (st : state) (appointment_id : Z) (text : string)
  : state :=
  match get_appointment appointment_id (appointments st) with
  | None => st
  | Some r => mkState (users st) (update_row r (set_pharmacy_status text) (appointments st))
  end.

(** * Vocabulary of the properties *)

(** The instants a [datetime] can hold, in minutes since 1900-01-01 00:00. *)
Definition representable (t : Z) : Prop :=
  0 < ordinal_1900 + t / 1440 <= max_ordinal.

(** A time of day in microseconds after midnight. *)
Definition microseconds (t : pytime) : Z :=
  ((hour t * 60 + minute t) * 60 + second t) * 1000000 + microsecond t.

Definition valid_time (t : pytime) : Prop :=
  0 <= hour t <= 23 /\ 0 <= minute t <= 59 /\ 0 <= second t <= 59 /\
  0 <= microsecond t <= 999999.

(** The patient already has a row with this doctor on this date, whatever its
    status. *)
Definition has_booking (patient doctor : Z) (s : string) (appts : list Appointment) : Prop :=
  exists a, In a appts /\ patient_id a = patient /\ doctor_id a = doctor /\ date a = s.

(** [i, i + 1, ..., i + n - 1] *)
Fixpoint zseq (i : Z) (n : nat) : list Z :=
  match n with
  | O => []
  | S k => i :: zseq (i + 1) k
  end.

(** The queue positions of the Pending rows of a doctor and a date. *)
Definition partition_numbers (doctor : Z) (day_str : string) (appts : list Appointment)
  : list Z :=
  map appointment_number (filter (in_partition doctor day_str) appts).

(** Invariant I1 for one partition: its queue positions are 1, ..., N, each
    once. *)
Definition contiguous (doctor : Z) (day_str : string) (appts : list Appointment) : Prop :=
  Permutation (partition_numbers doctor day_str appts)
              (zseq 1 (List.length (filter (in_partition doctor day_str) appts))).

Definition I1 (st : state) : Prop :=
  forall doctor day_str, contiguous doctor day_str (appointments st).

(** The query of [reindex_appointments]: the Pending rows of the doctor and
    the date, by creation time. *)
Definition pending_rows (d : Z) (s : string) (appts : list Appointment) : list row :=
  order_by (created_of appts) (select (in_partition d s) appts).

Definition is_nan (x : pyfloat) : bool :=
  match x with S754_nan => true | _ => false end.

(** The doctor who posts the form is the doctor of the appointment. *)
Definition owns (st : state) (current_user : User) (appointment_id : Z) : Prop :=
  forall r, get_appointment appointment_id (appointments st) = Some r ->
            doctor_id (row_at (appointments st) r) = user_id current_user.


(** Invariant I2: a patient has at most one appointment with a doctor on a
    date. *)
Definition I2 (st : state) : Prop :=
  forall patient doctor s,
    (List.length (filter (same_booking patient doctor s) (appointments st)) <= 1)%nat.

(** Invariant I3: a doctor has no more Pending appointments on a date than
    [max_patients]. *)
Definition I3 (st : state) : Prop :=
  forall d s, In d (users st) ->
              pending_count (user_id d) s (appointments st) <= max_patients d.

(** The primary key of [User]. *)
Definition unique_ids (st : state) : Prop := NoDup (map user_id (users st)).

(** A request to the application. *)
Inductive request :=
| BookRequest (clk : clock) (utcnow patient doctor : Z) (s : string)
| VoiceRequest (day : pydate) (utcnow patient : Z) (heard : option string)
| CompleteRequest (current_user : User) (id : Z) (text : string).

Definition handle (ratio : string -> string -> pyfloat) (st : state) (req : request)
  : state :=
  match req with
  | BookRequest clk utcnow patient doctor s =>
      snd (patient_dashboard_post st clk utcnow patient doctor s)
  | VoiceRequest day utcnow patient heard =>
      snd (voice_turn ratio st day utcnow patient heard)
  | CompleteRequest current_user id text =>
      doctor_dashboard_post st current_user id text
  end.



(** The strings a pattern matches. *)
Inductive matches : regex -> string -> Prop :=
| matches_eps : matches Eps ""
| matches_class p c : p c = true -> matches (Class p) (String c "")
| matches_seq r1 r2 s1 s2 :
    matches r1 s1 -> matches r2 s2 -> matches (Seq r1 r2) (s1 ++ s2)
| matches_alt_l r1 r2 s : matches r1 s -> matches (Alt r1 r2) s
| matches_alt_r r1 r2 s : matches r2 s -> matches (Alt r1 r2) s
| matches_star_nil r : matches (Star r) ""
| matches_star_cons r s1 s2 :
    matches r s1 -> matches (Star r) s2 -> matches (Star r) (s1 ++ s2).

(** Every character of the string is in the class. *)
Fixpoint all_chars (p : ascii -> bool) (s : string) : bool :=
  match s with
  | EmptyString => true
  | String c rest => p c && all_chars p rest
  end.


(** What the table of accounts keeps: distinct addresses, each valid and in
    lower case, and distinct keys. *)
Definition accounts_ok (accts : list Account) : Prop :=
  NoDup (map email accts) /\
  NoDup (map (fun a => user_id (user_row a)) accts) /\
  Forall (fun a => valid_email (email a) = true /\ lower (email a) = email a) accts.

(** A registration form: the salt drawn, the name, the address, the
    password, the role and the specialty. *)
Definition registration : Type :=
  (string * string * string * string * string * option string)%type.

Definition register_form (generate_password_hash : string -> string -> string)
    (accts : list Account) (f : registration) : list Account :=
  let '(salt, name_field, email_field, password_field, role_field, specialty_field) := f in
  snd (register generate_password_hash accts salt name_field email_field password_field
                role_field specialty_field).

(** A request of any of the three roles. *)
Inductive any_request :=
| Scheduling (req : request)
| Pharmacy (appointment_id : Z) (text : string).

Definition handle_any (ratio : string -> string -> pyfloat) (st : state)
    (req : any_request) : state :=
  match req with
  | Scheduling r => handle ratio st r
  | Pharmacy appointment_id text => pharmacist_dashboard_post st appointment_id text
  end.

Definition run_any (ratio : string -> string -> pyfloat) (st : state)
    (reqs : list any_request) : state :=
  fold_left (handle_any ratio) reqs st.

(** A prescription is attached to the Completed appointments and to no
    other. *)
Definition prescribed_when_completed (st : state) : Prop :=
  forall a, In a (appointments st) ->
            (has_prescription a = true <-> status a = Completed).

(** The estimate of every Pending appointment is the estimate of its doctor
    at its queue position. *)
Definition estimates_consistent (st : state) : Prop :=
  forall a d, In a (appointments st) -> status a = Pending ->
              get_user st (doctor_id a) = Some d ->
              estimated_time a = calculate_estimated_time d (appointment_number a).

(** The doctor who posts a completion is a row of [User]. *)
Definition posted_by_user (st : state) (req : any_request) : Prop :=
  match req with
  | Scheduling (CompleteRequest current_user _ _) => In current_user (users st)
  | _ => True
  end.






(** * Doctors, clocks and states of the examples *)

Definition dr_evening : User :=
  mkUser 2 "Asha Rao" "doctor" true (Some "20:00–23:59") 20 30.

Definition clk_morning : clock := mkClock (mkDate 2026 11 4) (mkTime 10 30 0 0).
Definition clk_closing : clock := mkClock (mkDate 2026 11 4) (mkTime 17 0 0 0).
Definition dr_smith : User :=
  mkUser 1 "John Smith" "doctor" true (Some "09:00–17:00") 5 15.

Definition dr_on_leave : User :=
  mkUser 6 "Kavya Menon" "doctor" false (Some "09:00–17:00") 5 15.

Definition st_leave : state := mkState [dr_on_leave] [].

Definition st_seen : state :=
  mkState [dr_smith]
          [mkAppointment 1 1 7 1 "2026-11-05" Completed (Some "rest") "Not Processed"
                         "09:00 AM" 100].

Definition dr_smithson : User :=
  mkUser 2 "Alice Smithson" "doctor" true (Some "09:00–17:00") 5 15.

Definition dr_blank : User :=
  mkUser 8 "  " "doctor" true (Some "09:00–17:00") 5 15.

Definition st_empty : state := mkState [dr_smith; dr_smithson] [].

Definition st_two_doctors : state :=
  mkState [dr_smith; dr_smithson]
          [mkAppointment 1 1 7 1 "2026-11-05" Pending None "Not Processed" "09:00 AM" 100;
           mkAppointment 2 2 8 1 "2026-11-05" Pending None "Not Processed" "09:15 AM" 101;
           mkAppointment 3 3 9 1 "2026-11-05" Pending None "Not Processed" "09:30 AM" 102].

Definition st_booked : state :=
  mkState [dr_smith]
          [mkAppointment 1 1 7 1 "2026-11-05" Pending None "Not Processed" "09:00 AM" 100].

Definition clk_evening : clock := mkClock (mkDate 2026 11 4) (mkTime 18 0 0 0).

(** * Properties *)

(** ** Reading a time of day *)

Lemma is_digit_value (c : ascii) : is_digit c = true -> 0 <= digit_value c <= 9.
Proof.
  unfold is_digit, digit_value; intros H.
  apply andb_true_iff in H as [H1 H2].
  apply Nat.leb_le in H1; apply Nat.leb_le in H2; lia.
Qed.

Ltac split_andb :=
  repeat match goal with
         | H : _ && _ = true |- _ => apply andb_true_iff in H as [? ?]
         | H : is_digit _ = true |- _ => apply is_digit_value in H
         | H : (_ <=? _) = true |- _ => apply Z.leb_le in H
         end.

Lemma hour2_range a b h : hour2 a b = Some h -> 0 <= h <= 23.
Proof.
  unfold hour2; destruct (_ && _) eqn:E; [|discriminate].
  intros [= <-]; split_andb; lia.
Qed.

Lemma hour1_range a h : hour1 a = Some h -> 0 <= h <= 23.
Proof.
  unfold hour1; destruct (is_digit a) eqn:E; [|discriminate].
  intros [= <-]; split_andb; lia.
Qed.

Lemma minute2_range a b m : minute2 a b = Some m -> 0 <= m <= 59.
Proof.
  unfold minute2; destruct (_ && _) eqn:E; [|discriminate].
  intros [= <-]; split_andb; lia.
Qed.

Lemma minute1_range a m : minute1 a = Some m -> 0 <= m <= 59.
Proof.
  unfold minute1; destruct (is_digit a) eqn:E; [|discriminate].
  intros [= <-]; split_andb; lia.
Qed.

Lemma both_some {A B} (x : option A) (y : option B) a b :
  both x y = Some (a, b) -> x = Some a /\ y = Some b.
Proof. destruct x, y; simpl; try discriminate. intros [= -> ->]; auto. Qed.

(** A time that [strptime] reads is a time of day. *)
Lemma strptime_HM_range (s : string) (h m : Z) :
  strptime_HM s = Some (h, m) -> 0 <= h <= 23 /\ 0 <= m <= 59.
Proof.
  unfold strptime_HM.
  destruct (list_ascii_of_string s) as [|a [|b [|c [|d [|e [|f l]]]]]];
    try discriminate.
  - destruct (Ascii.eqb b ":"); [|discriminate].
    intros H; apply both_some in H as [H1 H2].
    eauto using hour1_range, minute1_range.
  - destruct (Ascii.eqb c ":").
    + intros H; apply both_some in H as [H1 H2].
      eauto using hour2_range, minute1_range.
    + destruct (Ascii.eqb b ":"); [|discriminate].
      intros H; apply both_some in H as [H1 H2].
      eauto using hour1_range, minute2_range.
  - destruct (Ascii.eqb c ":"); [|discriminate].
    intros H; apply both_some in H as [H1 H2].
    eauto using hour2_range, minute2_range.
Qed.

Lemma window_start_range (d : User) (s : Z) :
  window_start d = Some s -> 0 <= s < 1440.
Proof.
  unfold window_start.
  destruct (available_time d) as [w|]; [|discriminate].
  destruct (strptime_HM _) as [[h m]|] eqn:E; [|discriminate].
  intros [= <-]. apply strptime_HM_range in E. lia.
Qed.

Lemma window_start_nonempty (d : User) (s : Z) :
  window_start d = Some s ->
  exists w, available_time d = Some w /\ is_empty w = false.
Proof.
  unfold window_start.
  destruct (available_time d) as [w|]; [|discriminate].
  destruct w as [|c w]; [discriminate|].
  intros _. exists (String c w). auto.
Qed.

(** ** [calculate_estimated_time] *)

Lemma add_minutes_representable (start k : Z) :
  0 <= start < 1440 -> representable (start + k) ->
  add_minutes start k = Some (start + k).
Proof.
  unfold add_minutes, representable, ordinal_1900, max_ordinal, max_timedelta_days.
  intros Hs Hr.
  assert ((Z.abs (k / 1440) <=? 999999999) = true) as ->.
  { apply Z.leb_le. Z.div_mod_to_equations. lia. }
  assert ((0 <? 693596 + (start + k) / 1440) = true) as -> by (apply Z.ltb_lt; lia).
  assert ((693596 + (start + k) / 1440 <=? 3652059) = true) as -> by (apply Z.leb_le; lia).
  reflexivity.
Qed.

Lemma add_minutes_overflow (start k : Z) :
  ~ representable (start + k) -> add_minutes start k = None.
Proof.
  unfold add_minutes, representable; intros Hr.
  destruct (0 <? ordinal_1900 + (start + k) / 1440) eqn:E1;
    destruct (ordinal_1900 + (start + k) / 1440 <=? max_ordinal) eqn:E2;
    rewrite ?andb_false_r; simpl; try reflexivity.
  apply Z.ltb_lt in E1; apply Z.leb_le in E2; lia.
Qed.

Lemma strftime_I_M_p_mod (t : Z) : strftime_I_M_p (t mod 1440) = strftime_I_M_p t.
Proof.
  unfold strftime_I_M_p.
  rewrite Z.mod_mod by lia.
  rewrite (Z.mod_mod_divide t 1440 60) by (exists 24; lia).
  reflexivity.
Qed.

Lemma estimated_dt_time (d : User) (p : Z) :
  calculate_estimated_time d p =
  match estimated_dt d p with
  | Some t => strftime_I_M_p t
  | None => "N/A"
  end.
Proof.
  unfold calculate_estimated_time.
  destruct (estimated_dt d p) as [t|] eqn:E.
  - unfold estimated_dt in E.
    destruct (window_start d) as [s|] eqn:W; [|discriminate].
    destruct (window_start_nonempty _ _ W) as (w & -> & ->). reflexivity.
  - destruct (available_time d) as [w|]; [|reflexivity].
    destruct (is_empty w); reflexivity.
Qed.

(** The example of the specification: a fourth booking of the default window
    with 15-minute consultations is estimated at 09:45. *)
Example estimate_fourth_booking :
  calculate_estimated_time
    (mkUser 1 "John Smith" "doctor" true (Some "09:00–17:00") 5 15) 4 = "09:45 AM".
Proof. reflexivity. Qed.

(** C3, as the code has it: with a window start that [strptime] reads, the
    estimate at position 1 is the window start; at a position [p >= 1] whose
    instant [start + (p - 1) * avg_consult_time] (counted from 1900-01-01)
    a [datetime] can hold, the estimate is the time of day of that instant,
    that is the sum modulo 24 hours, printed on the 12-hour clock, so two
    successive estimates differ by [avg_consult_time] modulo 24 hours; the
    window end is not looked at.  Past that range the estimate is "N/A". *)
Theorem estimate_time_arithmetic (d : User) (s p : Z) :
  window_start d = Some s -> 1 <= p ->
  let t := s + (p - 1) * avg_consult_time d in
  calculate_estimated_time d 1 = strftime_I_M_p s /\
  estimated_minute d 1 = Some s /\
  (representable t ->
     calculate_estimated_time d p = strftime_I_M_p (t mod 1440) /\
     estimated_minute d p = Some (t mod 1440)) /\
  (representable t -> representable (t + avg_consult_time d) ->
     exists m m', estimated_minute d p = Some m /\
                  estimated_minute d (p + 1) = Some m' /\
                  (m' - m) mod 1440 = avg_consult_time d mod 1440) /\
  (~ representable t -> calculate_estimated_time d p = "N/A").
Proof.
  intros W Hp t.
  pose proof (window_start_range _ _ W) as Hs.
  assert (E : forall q, representable (s + (q - 1) * avg_consult_time d) ->
              estimated_dt d q = Some (s + (q - 1) * avg_consult_time d)).
  { intros q Hq. unfold estimated_dt. rewrite W.
    now apply add_minutes_representable. }
  assert (R1 : representable (s + (1 - 1) * avg_consult_time d)).
  { unfold representable, ordinal_1900, max_ordinal.
    replace (s + (1 - 1) * avg_consult_time d) with s by lia.
    rewrite Z.div_small by lia. lia. }
  assert (E1 := E 1 R1).
  replace (s + (1 - 1) * avg_consult_time d) with s in E1 by lia.
  repeat split.
  - rewrite estimated_dt_time, E1. reflexivity.
  - unfold estimated_minute. rewrite E1, Z.mod_small by lia. reflexivity.
  - rewrite estimated_dt_time, (E p H). now rewrite strftime_I_M_p_mod.
  - unfold estimated_minute. now rewrite (E p H).
  - intros Ht Ht'.
    exists (t mod 1440), ((t + avg_consult_time d) mod 1440).
    unfold estimated_minute. rewrite (E p Ht).
    replace (t + avg_consult_time d) with (s + (p + 1 - 1) * avg_consult_time d) in *
      by (unfold t; lia).
    rewrite (E (p + 1) Ht').
    repeat split.
    replace (s + (p + 1 - 1) * avg_consult_time d) with (t + avg_consult_time d)
      by (unfold t; lia).
    rewrite <- Zminus_mod.
    f_equal. lia.
  - intros Ht. rewrite estimated_dt_time. unfold estimated_dt. rewrite W.
    fold t. now rewrite add_minutes_overflow.
Qed.

Lemma estimate_time_arithmetic_witness :
  calculate_estimated_time dr_evening 1 = strftime_I_M_p 1200 /\
  estimated_minute dr_evening 1 = Some 1200 /\
  (representable 1440 ->
     calculate_estimated_time dr_evening 9 = strftime_I_M_p (1440 mod 1440) /\
     estimated_minute dr_evening 9 = Some (1440 mod 1440)) /\
  (representable 1440 -> representable (1440 + 30) ->
     exists m m', estimated_minute dr_evening 9 = Some m /\
                  estimated_minute dr_evening (9 + 1) = Some m' /\
                  (m' - m) mod 1440 = 30 mod 1440) /\
  (~ representable 1440 -> calculate_estimated_time dr_evening 9 = "N/A").
Proof.
  apply (estimate_time_arithmetic dr_evening 1200 9); [reflexivity | lia].
Defined.

(** C3 as stated fails on the code: the ninth patient of an evening window
    from 20:00 with 30-minute consultations is estimated at 12:00 AM, minute 0
    of the day and not minute [1200 + 8 * 30], 1410 minutes before the estimate
    of the eighth and not 30 after it; and with a consultation length that
    carries the second estimate past the year 9999 there is no time at all. *)
Lemma estimate_time_not_plain_sum :
  window_start dr_evening = Some 1200 /\
  calculate_estimated_time dr_evening 9 = "12:00 AM" /\
  estimated_minute dr_evening 9 = Some 0 /\
  estimated_minute dr_evening 8 = Some 1410 /\
  1200 + (9 - 1) * avg_consult_time dr_evening = 1440 /\
  0 - 1410 <> avg_consult_time dr_evening /\
  calculate_estimated_time
    (mkUser 3 "Ravi Iyer" "doctor" true (Some "09:00–17:00") 5 10000000000) 2 = "N/A".
Proof. repeat split; try reflexivity. simpl; lia. Qed.

(** C4: [calculate_estimated_time] returns for every doctor and every queue
    position, either a time of day on the 12-hour clock or "N/A"; when the
    start of the window is missing or is not a time, it returns "N/A". *)
Theorem estimate_time_total (d : User) (p : Z) :
  (calculate_estimated_time d p = "N/A" \/
   exists t, 0 <= t < 1440 /\ calculate_estimated_time d p = strftime_I_M_p t) /\
  (window_start d = None -> calculate_estimated_time d p = "N/A").
Proof.
  rewrite estimated_dt_time. split.
  - destruct (estimated_dt d p) as [t|]; [right|now left].
    exists (t mod 1440). split; [apply Z.mod_pos_bound; lia|].
    now rewrite strftime_I_M_p_mod.
  - intros W. unfold estimated_dt. now rewrite W.
Qed.

Lemma estimate_time_total_witness :
  calculate_estimated_time
    (mkUser 4 "Meera Nair" "doctor" true (Some "nine to five") 5 15) 3 = "N/A" /\
  calculate_estimated_time
    (mkUser 5 "Arjun Das" "doctor" true None 5 15) 3 = "N/A".
Proof.
  split.
  - apply (proj2 (estimate_time_total
                    (mkUser 4 "Meera Nair" "doctor" true (Some "nine to five") 5 15) 3)).
    reflexivity.
  - apply (proj2 (estimate_time_total (mkUser 5 "Arjun Das" "doctor" true None 5 15) 3)).
    reflexivity.
Defined.

(** ** [is_date_available] *)

Ltac bool_to_Z :=
  repeat match goal with
         | |- context [?a <? ?b] => destruct (Z.ltb_spec a b)
         | |- context [?a =? ?b] => destruct (Z.eqb_spec a b)
         | |- context [?a <=? ?b] => destruct (Z.leb_spec a b)
         end; simpl.

(** The order of [datetime.time] is the order of the instants. *)
Lemma time_ltb_microseconds (a b : pytime) :
  valid_time a -> valid_time b ->
  time_ltb a b = (microseconds a <? microseconds b).
Proof.
  unfold valid_time, time_ltb, microseconds.
  destruct a as [h1 m1 s1 u1], b as [h2 m2 s2 u2]; simpl.
  intros (? & ? & ? & ?) (? & ? & ? & ?).
  bool_to_Z; try reflexivity; lia.
Qed.

Lemma window_end_valid (d : User) (e : pytime) :
  window_end d = Some e -> valid_time e.
Proof.
  unfold window_end.
  destruct (available_time d) as [w|]; [|discriminate].
  destruct (strptime_HM _) as [[h m]|] eqn:E; [|discriminate].
  intros [= <-]. apply strptime_HM_range in E.
  unfold valid_time; simpl; lia.
Qed.

Lemma date_eqb_eq (a b : pydate) : date_eqb a b = true <-> a = b.
Proof.
  unfold date_eqb. destruct a as [y1 m1 d1], b as [y2 m2 d2]; simpl.
  rewrite !andb_true_iff, !Z.eqb_eq. split.
  - intros [[-> ->] ->]; reflexivity.
  - intros [= -> -> ->]; auto.
Qed.

Lemma date_ltb_irrefl (a : pydate) : date_ltb a a = false.
Proof. unfold date_ltb. bool_to_Z; try reflexivity; lia. Qed.

Lemma date_ltb_asym (a b : pydate) : date_ltb a b = true -> date_ltb b a = false.
Proof.
  unfold date_ltb. bool_to_Z; intros; try reflexivity; try discriminate; lia.
Qed.

Lemma date_ltb_neq (a b : pydate) : date_ltb a b = true -> date_eqb b a = false.
Proof.
  intros H. destruct (date_eqb b a) eqn:E; [|reflexivity].
  apply date_eqb_eq in E; subst. now rewrite date_ltb_irrefl in H.
Qed.

(** C5: for a requested date that is a date, [is_date_available] is false
    before today; today it is false exactly when the time of day is at or
    past the end of the window, and true when the end of the window cannot be
    read; and it is true on every later date. *)
Theorem is_date_available_spec (clk : clock) (doctor : User) (s : string)
    (selected : pydate) :
  strptime_date s = Some selected ->
  valid_time (now_time clk) ->
  (date_ltb selected (today clk) = true ->
     is_date_available clk doctor s = Returned false) /\
  (selected = today clk ->
     (forall e, window_end doctor = Some e ->
        is_date_available clk doctor s
        = Returned (negb (microseconds e <=? microseconds (now_time clk)))) /\
     (window_end doctor = None -> is_date_available clk doctor s = Returned true)) /\
  (date_ltb (today clk) selected = true ->
     is_date_available clk doctor s = Returned true).
Proof.
  intros P V. unfold is_date_available. rewrite P.
  split; [|split].
  - now intros ->.
  - intros ->. rewrite date_ltb_irrefl.
    replace (date_eqb (today clk) (today clk)) with true
      by (symmetry; now apply date_eqb_eq).
    split.
    + intros e E. rewrite E.
      rewrite time_ltb_microseconds by eauto using window_end_valid.
      f_equal. rewrite Z.leb_antisym. now rewrite negb_involutive.
    + now intros ->.
  - intros L. rewrite (date_ltb_asym _ _ L), (date_ltb_neq _ _ L). reflexivity.
Qed.

Lemma is_date_available_spec_witness :
  is_date_available clk_closing dr_smith "2026-11-04" = Returned false /\
  is_date_available clk_morning dr_smith "2026-11-04" = Returned true /\
  is_date_available clk_closing dr_smith "2026-11-03" = Returned false /\
  is_date_available clk_closing dr_smith "2026-11-05" = Returned true.
Proof.
  assert (V1 : valid_time (now_time clk_closing)) by (unfold valid_time; simpl; lia).
  assert (V2 : valid_time (now_time clk_morning)) by (unfold valid_time; simpl; lia).
  split; [|split; [|split]].
  - apply (proj1 (proj1 (proj2 (is_date_available_spec clk_closing dr_smith "2026-11-04"
                                  (mkDate 2026 11 4) eq_refl V1)) eq_refl)
                 (mkTime 17 0 0 0) eq_refl).
  - apply (proj1 (proj1 (proj2 (is_date_available_spec clk_morning dr_smith "2026-11-04"
                                  (mkDate 2026 11 4) eq_refl V2)) eq_refl)
                 (mkTime 17 0 0 0) eq_refl).
  - apply (proj1 (is_date_available_spec clk_closing dr_smith "2026-11-03"
                    (mkDate 2026 11 3) eq_refl V1) eq_refl).
  - apply (proj2 (proj2 (is_date_available_spec clk_closing dr_smith "2026-11-05"
                           (mkDate 2026 11 5) eq_refl V1)) eq_refl).
Defined.

(** C10: [is_date_available] lets an exception out exactly when the requested
    date is not a date that [strptime] reads with [%Y-%m-%d], whatever the
    doctor and the clock; otherwise it returns a boolean. *)
Theorem is_date_available_raises (clk : clock) (doctor : User) (s : string) :
  (is_date_available clk doctor s = Raised <-> strptime_date s = None) /\
  (strptime_date s <> None -> exists b, is_date_available clk doctor s = Returned b).
Proof.
  unfold is_date_available.
  destruct (strptime_date s) as [selected|].
  - assert (exists b,
        (if date_ltb selected (today clk) then Returned false
         else if date_eqb selected (today clk)
              then match window_end doctor with
                   | Some end_time => Returned (time_ltb (now_time clk) end_time)
                   | None => Returned true
                   end
              else Returned true) = Returned b) as [b ->].
    { destruct (date_ltb _ _); [eauto|].
      destruct (date_eqb _ _); [|eauto].
      destruct (window_end doctor); eauto. }
    split; [split; discriminate | eauto].
  - split; [tauto | intros H; now elim H].
Qed.

Lemma is_date_available_raises_witness :
  is_date_available clk_morning dr_smith "05/11/2026" = Raised /\
  is_date_available clk_morning dr_smith "2026-02-30" = Raised /\
  exists b, is_date_available clk_morning dr_smith "2026-11-05" = Returned b.
Proof.
  split; [|split].
  - apply (proj1 (is_date_available_raises clk_morning dr_smith "05/11/2026")).
    reflexivity.
  - apply (proj1 (is_date_available_raises clk_morning dr_smith "2026-02-30")).
    reflexivity.
  - apply (proj2 (is_date_available_raises clk_morning dr_smith "2026-11-05")).
    discriminate.
Defined.

(** ** The booking branch of [patient_dashboard] *)

Lemma same_booking_iff (patient doctor : Z) (s : string) (a : Appointment) :
  same_booking patient doctor s a = true <->
  patient_id a = patient /\ doctor_id a = doctor /\ date a = s.
Proof.
  unfold same_booking.
  rewrite !andb_true_iff, !Z.eqb_eq, String.eqb_eq. tauto.
Qed.

Lemma has_booking_iff (patient doctor : Z) (s : string) (appts : list Appointment) :
  existsb (same_booking patient doctor s) appts = true <-> has_booking patient doctor s appts.
Proof.
  rewrite existsb_exists. unfold has_booking.
  split; intros (a & Ha & H); exists a; split; auto; now apply same_booking_iff.
Qed.

(** C1, as the code has it: the four checks in order, each failing with its
    outcome and leaving the state as it was.  The first check is that the
    doctor's row exists (the [availability] flag is not read); the third is
    that the patient has no row at all, of any status, with this doctor on
    this date.  On success one Pending row is appended, numbered one past the
    Pending count, with the estimate of [calculate_estimated_time] there. *)
Theorem booking_checks_in_order (st : state) (clk : clock) (utcnow patient doctor : Z)
    (s : string) :
  let r := patient_dashboard_post st clk utcnow patient doctor s in
  let count := pending_count doctor s (appointments st) in
  (get_user st doctor = None -> r = (DoctorUnavailable, st)) /\
  (forall d, get_user st doctor = Some d ->
     (is_date_available clk d s = Raised -> r = (BookingRaised, st)) /\
     (is_date_available clk d s = Returned false -> r = (DateNotBookable, st)) /\
     (is_date_available clk d s = Returned true ->
        (has_booking patient doctor s (appointments st) -> r = (DuplicateBooking, st)) /\
        (~ has_booking patient doctor s (appointments st) ->
           (max_patients d <= count -> r = (CapacityExceeded, st)) /\
           (count < max_patients d ->
              exists a,
                r = (Booked a, mkState (users st) (appointments st ++ [a])) /\
                appointment_number a = count + 1 /\
                estimated_time a = calculate_estimated_time d (count + 1) /\
                status a = Pending /\ prescription a = None /\
                patient_id a = patient /\ doctor_id a = doctor /\ date a = s)))).
Proof.
  intros r count. subst r. unfold patient_dashboard_post. split.
  - now intros ->.
  - intros d ->. split; [now intros -> | split; [now intros -> |]].
    intros ->. split.
    + intros H. apply has_booking_iff in H. now rewrite H.
    + intros H.
      destruct (existsb _ _) eqn:E; [apply has_booking_iff in E; contradiction|].
      fold count. split.
      * intros L. apply Z.leb_le in L. now rewrite L.
      * intros L. apply Z.leb_gt in L. rewrite L.
        eexists. split; [reflexivity|]. simpl. tauto.
Qed.

(** C1 as stated fails on the code twice.  A doctor whose [availability] is
    off is booked, not refused with DoctorUnavailable; and a patient whose
    only appointment with the doctor that day is Completed, so has no Pending
    one, is refused with DuplicateBooking although the doctor has room. *)
Lemma booking_ignores_availability_and_status :
  get_user st_leave 6 = Some dr_on_leave /\ availability dr_on_leave = false /\
  (exists a, fst (patient_dashboard_post st_leave clk_morning 100 7 6 "2026-11-05")
             = Booked a) /\
  (forall a, In a (appointments st_seen) -> status a <> Pending) /\
  pending_count 1 "2026-11-05" (appointments st_seen) < max_patients dr_smith /\
  patient_dashboard_post st_seen clk_morning 100 7 1 "2026-11-05"
  = (DuplicateBooking, st_seen).
Proof.
  split; [reflexivity|]. split; [reflexivity|]. split; [eexists; reflexivity|].
  split; [|split; [reflexivity|reflexivity]].
  intros a [<-|[]]. discriminate.
Qed.

(** ** Rows and references *)

Lemma zseq_snoc (i : Z) (n : nat) : zseq i (S n) = (zseq i n ++ [i + Z.of_nat n])%list.
Proof.
  revert i; induction n as [|n IH]; intros i.
  - simpl. now rewrite Z.add_0_r.
  - change (zseq i (S (S n))) with (i :: zseq (i + 1) (S n)).
    rewrite IH. simpl. do 2 f_equal. f_equal. lia.
Qed.

Lemma update_row_length r f (l : list Appointment) :
  List.length (update_row r f l) = List.length l.
Proof.
  revert r; induction l as [|a l IH]; intros [|r]; simpl; auto.
Qed.

Lemma update_row_same r f (l : list Appointment) :
  (r < List.length l)%nat -> row_at (update_row r f l) r = f (row_at l r).
Proof.
  unfold row_at. revert r; induction l as [|a l IH]; intros [|r] H; simpl in *;
    try lia; auto. apply IH; lia.
Qed.

Lemma update_row_other r j f (l : list Appointment) :
  j <> r -> row_at (update_row r f l) j = row_at l j.
Proof.
  unfold row_at. revert r j; induction l as [|a l IH]; intros [|r] [|j] H; simpl;
    auto; try contradiction.
Qed.

Lemma update_row_beyond r f (l : list Appointment) :
  (List.length l <= r)%nat -> update_row r f l = l.
Proof.
  revert r; induction l as [|a l IH]; intros [|r] H; simpl in *; auto; try lia.
  f_equal. apply IH; lia.
Qed.

(** A column that [f] leaves alone reads the same after the update. *)
Lemma update_row_map {B} (g : Appointment -> B) r f (l : list Appointment) :
  (forall a, g (f a) = g a) -> map g (update_row r f l) = map g l.
Proof.
  intros H. revert r; induction l as [|a l IH]; intros [|r]; simpl; auto.
  - now rewrite H.
  - now rewrite IH.
Qed.

(** A filter that rejects the row before and after the update does not see
    it. *)
Lemma update_row_filter_out keep r f (l : list Appointment) :
  keep (row_at l r) = false -> keep (f (row_at l r)) = false ->
  filter keep (update_row r f l) = filter keep l.
Proof.
  unfold row_at. revert r; induction l as [|a l IH]; intros [|r] H1 H2; simpl in *; auto.
  - now rewrite H1, H2.
  - now rewrite IH.
Qed.

Lemma select_from_bounds keep (l : list Appointment) off r :
  In r (select_from keep l off) -> (off <= r < off + List.length l)%nat.
Proof.
  revert off; induction l as [|a l IH]; intros off; simpl; [tauto|].
  destruct (keep a); simpl; intros H.
  - destruct H as [<-|H]; [lia|]. apply IH in H. lia.
  - apply IH in H. lia.
Qed.

Lemma select_from_NoDup keep (l : list Appointment) off :
  NoDup (select_from keep l off).
Proof.
  revert off; induction l as [|a l IH]; intros off; simpl; [constructor|].
  destruct (keep a); auto. constructor; auto.
  intros H. apply select_from_bounds in H. lia.
Qed.

(** The rows a query selects are the rows its filter keeps. *)
Lemma select_from_filter keep (l : list Appointment) (off : nat) :
  map (fun r => row_at l (r - off)%nat) (select_from keep l off) = filter keep l.
Proof.
  revert off; induction l as [|a l IH]; intros off; simpl; [reflexivity|].
  assert (E : map (fun r => row_at (a :: l) (r - off)%nat) (select_from keep l (S off))
              = filter keep l).
  { rewrite <- (IH (S off)). apply map_ext_in. intros r H.
    apply select_from_bounds in H. unfold row_at.
    replace (r - off)%nat with (S (r - S off)) by lia. reflexivity. }
  destruct (keep a); simpl; rewrite E; [|reflexivity].
  now rewrite Nat.sub_diag.
Qed.

Lemma select_filter keep (l : list Appointment) :
  map (row_at l) (select keep l) = filter keep l.
Proof.
  rewrite <- (select_from_filter keep l 0). apply map_ext.
  intros r. now rewrite Nat.sub_0_r.
Qed.

Lemma select_from_map keep (l l' : list Appointment) off :
  map keep l = map keep l' -> select_from keep l off = select_from keep l' off.
Proof.
  revert l' off; induction l as [|a l IH]; intros [|a' l'] off H; simpl in *;
    try discriminate; auto.
  injection H as H1 H2. rewrite H1. now rewrite (IH l' (S off) H2).
Qed.

Lemma insert_by_perm key r (l : list row) : Permutation (r :: l) (insert_by key r l).
Proof.
  induction l as [|x l IH]; simpl; auto.
  destruct (key r <=? key x); auto.
  rewrite perm_swap. now constructor.
Qed.

(** Ordering a query rearranges its rows and nothing else. *)
Lemma order_by_perm key (rs : list row) : Permutation rs (order_by key rs).
Proof.
  induction rs as [|r rs IH]; simpl; auto.
  rewrite <- insert_by_perm. now constructor.
Qed.

(** ** [reindex_appointments] *)

Lemma reindex_loop_length doctor rs i (l : list Appointment) :
  List.length (reindex_loop doctor rs i l) = List.length l.
Proof.
  revert i l; induction rs as [|r rs IH]; intros i l; simpl; auto.
  now rewrite IH, update_row_length.
Qed.

(** The loop writes through the references it is given and through no
    other. *)
Lemma reindex_loop_other doctor rs i (l : list Appointment) j :
  ~ In j rs -> row_at (reindex_loop doctor rs i l) j = row_at l j.
Proof.
  revert i l; induction rs as [|r rs IH]; intros i l H; simpl; auto.
  rewrite IH by (intros ?; apply H; now right).
  apply update_row_other. intros ->. apply H. now left.
Qed.

(** The loop leaves alone every column but the two it assigns. *)
Lemma reindex_loop_map {B} (g : Appointment -> B) doctor rs i (l : list Appointment) :
  (forall k a, g (renumber doctor k a) = g a) ->
  map g (reindex_loop doctor rs i l) = map g l.
Proof.
  intros H. revert i l; induction rs as [|r rs IH]; intros i l; simpl; auto.
  rewrite IH. apply update_row_map. apply H.
Qed.

(** The rows of the query get the numbers [i, i + 1, ...] in its order. *)
Lemma reindex_loop_numbers doctor rs i (l : list Appointment) :
  NoDup rs -> (forall r, In r rs -> (r < List.length l)%nat) ->
  map (fun r => appointment_number (row_at (reindex_loop doctor rs i l) r)) rs
  = zseq i (List.length rs).
Proof.
  revert i l; induction rs as [|r rs IH]; intros i l N B; simpl; auto.
  inversion N as [|? ? Hr N']; subst. f_equal.
  - rewrite reindex_loop_other by assumption.
    rewrite update_row_same by (apply B; now left). reflexivity.
  - apply IH; auto. intros r' H. rewrite update_row_length. apply B. now right.
Qed.

(** ... and the estimates of [calculate_estimated_time] at those numbers. *)
Lemma reindex_loop_estimates doctor rs i (l : list Appointment) :
  NoDup rs -> (forall r, In r rs -> (r < List.length l)%nat) ->
  map (fun r => estimated_time (row_at (reindex_loop doctor rs i l) r)) rs
  = map (calculate_estimated_time doctor) (zseq i (List.length rs)).
Proof.
  revert i l; induction rs as [|r rs IH]; intros i l N B; simpl; auto.
  inversion N as [|? ? Hr N']; subst. f_equal.
  - rewrite reindex_loop_other by assumption.
    rewrite update_row_same by (apply B; now left). reflexivity.
  - apply IH; auto. intros r' H. rewrite update_row_length. apply B. now right.
Qed.

Lemma renumber_in_partition doctor k d s a :
  in_partition d s (renumber doctor k a) = in_partition d s a.
Proof. reflexivity. Qed.

Lemma pending_rows_perm d s appts :
  Permutation (select (in_partition d s) appts) (pending_rows d s appts).
Proof. apply order_by_perm. Qed.

Lemma pending_rows_NoDup d s appts : NoDup (pending_rows d s appts).
Proof.
  eapply Permutation_NoDup; [apply pending_rows_perm|]. apply select_from_NoDup.
Qed.

Lemma pending_rows_bound d s appts r :
  In r (pending_rows d s appts) -> (r < List.length appts)%nat.
Proof.
  intros H. eapply Permutation_in in H; [|symmetry; apply pending_rows_perm].
  apply select_from_bounds in H. lia.
Qed.

Lemma reindex_select doctor s d' s' appts :
  select (in_partition d' s') (reindex_appointments doctor s appts)
  = select (in_partition d' s') appts.
Proof.
  apply select_from_map. unfold reindex_appointments.
  apply reindex_loop_map. intros; apply renumber_in_partition.
Qed.

(** After [reindex_appointments] the queue positions of the partition are
    1, ..., N, each once: I1 is restored there whatever the positions were. *)
Lemma reindex_contiguous doctor s appts :
  contiguous (user_id doctor) s (reindex_appointments doctor s appts).
Proof.
  unfold contiguous, partition_numbers.
  rewrite <- !(select_filter (in_partition (user_id doctor) s)
                             (reindex_appointments doctor s appts)).
  rewrite map_map, length_map, reindex_select.
  rewrite (Permutation_length (pending_rows_perm (user_id doctor) s appts)).
  rewrite <- (reindex_loop_numbers doctor _ 1 appts
                (pending_rows_NoDup (user_id doctor) s appts)
                (pending_rows_bound (user_id doctor) s appts)).
  change (reindex_loop doctor (pending_rows (user_id doctor) s appts) 1 appts)
    with (reindex_appointments doctor s appts).
  apply Permutation_map. apply pending_rows_perm.
Qed.

(** The rows come in creation order: the time stamps of the query do not
    decrease along it. *)
Lemma insert_by_sorted key r (l : list row) :
  StronglySorted (fun a b => key a <= key b) l ->
  StronglySorted (fun a b => key a <= key b) (insert_by key r l).
Proof.
  induction 1 as [|x l S IH F]; simpl.
  - repeat constructor.
  - destruct (Z.leb_spec (key r) (key x)).
    + constructor; [now constructor|]. constructor; auto.
      eapply Forall_impl; [|exact F]. simpl; intros; lia.
    + constructor; auto.
      eapply Permutation_Forall; [apply insert_by_perm|]. constructor; auto; lia.
Qed.

Lemma order_by_sorted key (rs : list row) :
  StronglySorted (fun a b => key a <= key b) (order_by key rs).
Proof.
  induction rs as [|r rs IH]; simpl; [constructor|]. now apply insert_by_sorted.
Qed.

(** A partition other than the one reindexed keeps its rows. *)
Lemma reindex_loop_filter_out keep doctor rs i (l : list Appointment) :
  (forall k a, keep (renumber doctor k a) = keep a) ->
  (forall r, In r rs -> keep (row_at l r) = false) ->
  filter keep (reindex_loop doctor rs i l) = filter keep l.
Proof.
  intros K. revert i l; induction rs as [|r rs IH]; intros i l H; simpl; auto.
  rewrite IH.
  - apply update_row_filter_out; [|rewrite K]; apply H; now left.
  - intros r' Hr'. destruct (Nat.eq_dec r' r) as [->|Ne].
    + destruct (Nat.lt_ge_cases r (List.length l)).
      * rewrite update_row_same by assumption. rewrite K. apply H; now left.
      * rewrite update_row_beyond by assumption. apply H; now left.
    + rewrite update_row_other by assumption. apply H; now right.
Qed.

Lemma in_partition_iff d s a :
  in_partition d s a = true <-> doctor_id a = d /\ date a = s /\ status a = Pending.
Proof.
  unfold in_partition. rewrite !andb_true_iff, Z.eqb_eq, String.eqb_eq.
  destruct (status a); simpl; intuition congruence.
Qed.

Lemma in_partition_other d s d' s' a :
  (d', s') <> (d, s) -> in_partition d s a = true -> in_partition d' s' a = false.
Proof.
  intros Ne H. apply in_partition_iff in H as (<- & <- & _).
  destruct (in_partition d' s' a) eqn:E; [|reflexivity].
  apply in_partition_iff in E as (<- & <- & _). now elim Ne.
Qed.

Lemma select_in_partition keep (l : list Appointment) r :
  In r (select keep l) -> keep (row_at l r) = true.
Proof.
  intros H.
  assert (In (row_at l r) (filter keep l)) as I
    by (rewrite <- select_filter; now apply in_map).
  now apply filter_In in I.
Qed.

Lemma reindex_other_partition doctor s d' s' appts :
  (d', s') <> (user_id doctor, s) ->
  filter (in_partition d' s') (reindex_appointments doctor s appts)
  = filter (in_partition d' s') appts.
Proof.
  intros Ne. unfold reindex_appointments.
  apply reindex_loop_filter_out; [intros; apply renumber_in_partition|].
  intros r H. eapply Permutation_in in H; [|symmetry; apply order_by_perm].
  apply select_in_partition in H. eapply in_partition_other; eauto.
Qed.

(** ** The order of floats *)

Ltac compare_cases :=
  repeat match goal with
         | |- context [Pos.compare_cont Eq ?a ?b] =>
             change (Pos.compare_cont Eq a b) with (Pos.compare a b)
         | H : context [Pos.compare_cont Eq ?a ?b] |- _ =>
             change (Pos.compare_cont Eq a b) with (Pos.compare a b) in H
         end;
  repeat match goal with
         | H : context [Z.compare ?a ?b] |- _ => destruct (Z.compare_spec a b)
         | |- context [Z.compare ?a ?b] => destruct (Z.compare_spec a b)
         | H : context [Pos.compare ?a ?b] |- _ => destruct (Pos.compare_spec a b)
         | |- context [Pos.compare ?a ?b] => destruct (Pos.compare_spec a b)
         end;
  simpl in *; subst; try reflexivity; try discriminate; try lia.

Ltac float_cases x :=
  destruct x as [[|]|[|]| |[|] ? ?]; simpl in *; try discriminate; try reflexivity.

(** Two floats that are numbers compare one way or the other. *)
Lemma float_ltb_false (x y : pyfloat) :
  is_nan x = false -> is_nan y = false ->
  float_ltb x y = false -> float_leb y x = true.
Proof.
  unfold float_ltb, float_leb, SFltb, SFleb, SFcompare.
  float_cases x; float_cases y; intros _ _; compare_cases.
Qed.

Lemma float_leb_false (x y : pyfloat) :
  is_nan x = false -> is_nan y = false ->
  float_leb x y = false -> float_ltb y x = true.
Proof.
  unfold float_ltb, float_leb, SFltb, SFleb, SFcompare.
  float_cases x; float_cases y; intros _ _; compare_cases.
Qed.

Lemma float_ltb_leb (x y : pyfloat) : float_ltb x y = true -> float_leb x y = true.
Proof.
  unfold float_ltb, float_leb, SFltb, SFleb.
  destruct (SFcompare x y) as [[]|]; auto.
Qed.

Lemma float_ltb_trans (x y z : pyfloat) :
  float_ltb x y = true -> float_ltb y z = true -> float_ltb x z = true.
Proof.
  unfold float_ltb, SFltb, SFcompare.
  float_cases x; float_cases y; float_cases z; intros; compare_cases.
Qed.

Lemma float_leb_ltb_trans (x y z : pyfloat) :
  float_leb x y = true -> float_ltb y z = true -> float_ltb x z = true.
Proof.
  unfold float_ltb, float_leb, SFltb, SFleb, SFcompare.
  float_cases x; float_cases y; float_cases z; intros; compare_cases.
Qed.

Lemma float_ltb_not_nan (x y : pyfloat) : float_ltb x y = true -> is_nan y = false.
Proof.
  unfold float_ltb, SFltb, SFcompare. float_cases x; float_cases y.
Qed.

(** ** Rounding gives a number *)

Lemma shr_1_nonneg (mrs : shr_record) : 0 <= shr_m mrs -> 0 <= shr_m (shr_1 mrs).
Proof.
  destruct mrs as [m r s]; simpl. destruct m as [|[p|p|]|[p|p|]]; simpl; lia.
Qed.

Lemma iter_pos_shr_1_nonneg (p : positive) (mrs : shr_record) :
  0 <= shr_m mrs -> 0 <= shr_m (iter_pos shr_1 p mrs).
Proof.
  revert mrs; induction p as [p IH|p IH|]; intros mrs H; simpl.
  - apply IH, IH, shr_1_nonneg, H.
  - apply IH, IH, H.
  - apply shr_1_nonneg, H.
Qed.

Lemma shr_fexp_nonneg (m e : Z) (l : location) :
  0 <= m -> 0 <= shr_m (fst (shr_fexp 53 1024 m e l)).
Proof.
  intros H. unfold shr_fexp, shr.
  assert (0 <= shr_m (shr_record_of_loc m l)) by (destruct l as [|[]]; simpl; lia).
  destruct (fexp 53 1024 (Zdigits2 m + e) - e); simpl; auto.
  now apply iter_pos_shr_1_nonneg.
Qed.

Lemma round_nearest_even_nonneg (m : Z) (l : location) :
  0 <= m -> 0 <= round_nearest_even m l.
Proof.
  intros H. destruct l as [|[]]; simpl; try lia. destruct (Z.even m); lia.
Qed.

Lemma binary_round_aux_not_nan (sx : bool) (mx ex : Z) (lx : location) :
  0 <= mx -> is_nan (binary_round_aux 53 1024 sx mx ex lx) = false.
Proof.
  intros H. unfold binary_round_aux.
  pose proof (shr_fexp_nonneg mx ex lx H) as H1.
  destruct (shr_fexp 53 1024 mx ex lx) as [mrs' e']; simpl in H1.
  pose proof (shr_fexp_nonneg _ e' loc_Exact
                (round_nearest_even_nonneg _ (loc_of_shr_record mrs') H1)) as H2.
  destruct (shr_fexp 53 1024 _ e' loc_Exact) as [mrs'' e'']; simpl in H2.
  destruct (shr_m mrs''); try reflexivity; [|lia].
  destruct (e'' <=? 1024 - 53); reflexivity.
Qed.

Lemma binary_normalize_not_nan (m e : Z) (s : bool) :
  is_nan (binary_normalize 53 1024 m e s) = false.
Proof.
  unfold binary_normalize, binary_round.
  destruct m as [|p|p]; [reflexivity| |];
    destruct (shl_align _ _ _); apply binary_round_aux_not_nan; lia.
Qed.

(** Adding 0.4 to a number gives a number. *)
Lemma float_add_0_4_not_nan (x : pyfloat) :
  is_nan x = false -> is_nan (float_add x float_0_4) = false.
Proof.
  unfold float_add, float_0_4, SFadd.
  destruct x as [[|]|[|]| |s m e]; simpl; try discriminate; try reflexivity.
  intros _. apply binary_normalize_not_nan.
Qed.

(** ** [match_doctor_name] *)

Section MatcherProperties.

Variable ratio : string -> string -> pyfloat.
Variable command_clean : string.

Local Abbreviation sc := (score ratio command_clean).

(** The loop keeps the first of the doctors of highest score, when that
    score is above the one it starts from. *)
Lemma match_loop_spec (doctors : list User) :
  forall (best : option User) (h : pyfloat),
    is_nan h = false ->
    (forall d, In d doctors -> exists s, sc d = Returned s /\ is_nan s = false) ->
    exists best' h',
      match_loop ratio doctors command_clean best h = Returned (best', h') /\
      ((best' = best /\ h' = h /\
        forall d s, In d doctors -> sc d = Returned s -> float_leb s h = true) \/
       (exists i d,
           nth_error doctors i = Some d /\ best' = Some d /\ sc d = Returned h' /\
           float_ltb h h' = true /\
           (forall j dj sj, (j < i)%nat -> nth_error doctors j = Some dj ->
                            sc dj = Returned sj -> float_ltb sj h' = true) /\
           (forall j dj sj, (i < j)%nat -> nth_error doctors j = Some dj ->
                            sc dj = Returned sj -> float_leb sj h' = true))).
Proof.
  induction doctors as [|d rest IH]; intros best h Hh Hs.
  - exists best, h. split; [reflexivity|]. left. repeat split. intros ? ? [].
  - destruct (Hs d (or_introl eq_refl)) as (s & Es & Ns).
    assert (Hrest : forall d', In d' rest ->
                               exists s', sc d' = Returned s' /\ is_nan s' = false)
      by (intros d' H'; apply Hs; now right).
    simpl. rewrite Es.
    destruct (float_ltb h s) eqn:L.
    + destruct (IH (Some d) s Ns Hrest)
        as (b' & h' & E & [(-> & -> & A)|(i & di & Hi & -> & Si & Lt & B & A)]).
      * exists (Some d), s. split; [exact E|]. right. exists O, d. simpl.
        repeat split; auto.
        -- intros j dj sj Hj. lia.
        -- intros [|j] dj sj Hj Hn Hsj; [lia|]. simpl in Hn.
           eapply A; eauto using nth_error_In.
      * exists (Some di), h'. split; [exact E|]. right. exists (S i), di. simpl.
        repeat split; auto.
        -- eapply float_ltb_trans; eauto.
        -- intros [|j] dj sj Hj Hn Hsj; simpl in Hn.
           ++ injection Hn as <-. rewrite Es in Hsj. injection Hsj as <-. exact Lt.
           ++ apply (B j dj sj); [lia|assumption|assumption].
        -- intros [|j] dj sj Hj Hn Hsj; [lia|]. simpl in Hn.
           apply (A j dj sj); [lia|assumption|assumption].
    + assert (Le : float_leb s h = true) by (apply float_ltb_false; auto).
      destruct (IH best h Hh Hrest)
        as (b' & h' & E & [(-> & -> & A)|(i & di & Hi & -> & Si & Lt & B & A)]).
      * exists best, h. split; [exact E|]. left. repeat split.
        intros d' s' [<-|Hin] Hs'; [|eauto].
        rewrite Es in Hs'. injection Hs' as <-. exact Le.
      * exists (Some di), h'. split; [exact E|]. right. exists (S i), di. simpl.
        repeat split; auto.
        -- intros [|j] dj sj Hj Hn Hsj; simpl in Hn.
           ++ injection Hn as <-. rewrite Es in Hsj. injection Hsj as <-.
              eapply float_leb_ltb_trans; eauto.
           ++ apply (B j dj sj); [lia|assumption|assumption].
        -- intros [|j] dj sj Hj Hn Hsj; [lia|]. simpl in Hn.
           apply (A j dj sj); [lia|assumption|assumption].
Qed.

(** The score of a doctor whose name has a word. *)
Lemma score_named (d : User) :
  split_ws (lower (name d)) <> [] ->
  exists first others,
    split_ws (lower (name d)) = first :: others /\
    sc d = Returned
             (if contains first command_clean
                 || contains (last (first :: others) "") command_clean
              then float_add (ratio (normalize_text (name d)) command_clean) float_0_4
              else ratio (normalize_text (name d)) command_clean).
Proof.
  intros H. unfold score, name_in_command.
  destruct (split_ws (lower (name d))) as [|first others]; [now elim H|].
  exists first, others. split; [reflexivity|].
  destruct (contains first command_clean || _); reflexivity.
Qed.

Lemma score_not_nan (d : User) :
  split_ws (lower (name d)) <> [] ->
  is_nan (ratio (normalize_text (name d)) command_clean) = false ->
  exists s, sc d = Returned s /\ is_nan s = false.
Proof.
  intros H N. destruct (score_named d H) as (first & others & _ & ->).
  eexists. split; [reflexivity|].
  destruct (_ || _); auto using float_add_0_4_not_nan.
Qed.

(** A name with no word in it stops the loop with an exception. *)
Lemma match_loop_raises (doctors : list User) :
  (exists d, In d doctors /\ split_ws (lower (name d)) = []) ->
  forall best h, match_loop ratio doctors command_clean best h = Raised.
Proof.
  induction doctors as [|d rest IH]; intros (d0 & Hin & Hd) best h;
    [destruct Hin|].
  simpl. destruct (score ratio command_clean d) as [s|] eqn:Es; [|reflexivity].
  assert (In d0 rest) as Hin'.
  { destruct Hin as [->|]; [|assumption].
    unfold score, name_in_command in Es. rewrite Hd in Es. discriminate. }
  destruct (float_ltb h s); apply IH; eauto.
Qed.

End MatcherProperties.

(** C7, as the code has it, for doctors whose names each have a word and a
    ratio that is a number: the score of a doctor is the ratio of the
    normalized name and the normalized command, plus 0.4 when the first or the
    last word of the lower-cased name is in the normalized command;
    [match_doctor_name] returns, and what it returns is the first doctor of
    the highest score when that score is at least 0.4, and no doctor when
    every score is below 0.4. *)
Theorem match_doctor_name_spec (ratio : string -> string -> pyfloat)
    (doctors : list User) (command : string) :
  (forall d, In d doctors -> split_ws (lower (name d)) <> []) ->
  (forall d, In d doctors ->
             is_nan (ratio (normalize_text (name d)) (normalize_text command)) = false) ->
  let cc := normalize_text command in
  (forall d, In d doctors ->
     exists first others,
       split_ws (lower (name d)) = first :: others /\
       score ratio cc d
       = Returned (if contains first cc || contains (last (first :: others) "") cc
                   then float_add (ratio (normalize_text (name d)) cc) float_0_4
                   else ratio (normalize_text (name d)) cc)) /\
  exists r,
    match_doctor_name ratio doctors command = Returned r /\
    match r with
    | Some d =>
        exists i s,
          nth_error doctors i = Some d /\ score ratio cc d = Returned s /\
          float_leb float_0_4 s = true /\
          (forall j dj sj, (j < i)%nat -> nth_error doctors j = Some dj ->
                           score ratio cc dj = Returned sj -> float_ltb sj s = true) /\
          (forall j dj sj, (i < j)%nat -> nth_error doctors j = Some dj ->
                           score ratio cc dj = Returned sj -> float_leb sj s = true)
    | None =>
        forall d s, In d doctors -> score ratio cc d = Returned s ->
                    float_ltb s float_0_4 = true
    end.
Proof.
  intros Hname Hnan cc. split.
  - intros d Hd. apply score_named. now apply Hname.
  - assert (Hs : forall d, In d doctors ->
                    exists s, score ratio cc d = Returned s /\ is_nan s = false)
      by (intros d Hd; apply score_not_nan; auto).
    destruct (match_loop_spec ratio cc doctors None float_0 eq_refl Hs)
      as (b' & h' & E & [(-> & -> & A)|(i & di & Hi & -> & Si & Lt & B & A)]);
      unfold match_doctor_name; fold cc; rewrite E.
    + exists None. split; [reflexivity|].
      intros d s Hd Hsd. eapply float_leb_ltb_trans; [eapply A; eauto|reflexivity].
    + pose proof (float_ltb_not_nan _ _ Lt) as Nh.
      destruct (float_leb float_0_4 h') eqn:T.
      * exists (Some di). split; [reflexivity|]. exists i, h'. auto.
      * exists None. split; [reflexivity|].
        assert (Lh : float_ltb h' float_0_4 = true)
          by (apply float_leb_false; auto).
        intros d s Hd Hsd.
        destruct (In_nth_error _ _ Hd) as [j Hj].
        destruct (Nat.lt_trichotomy j i) as [Hji|[->|Hji]].
        -- eapply float_ltb_trans; [apply (B j d s); assumption|exact Lh].
        -- rewrite Hi in Hj. injection Hj as <-.
           rewrite Si in Hsd. injection Hsd as <-. exact Lh.
        -- eapply float_leb_ltb_trans; [apply (A j d s); assumption|exact Lh].
Qed.

Lemma match_doctor_name_spec_witness :
  exists r,
    match_doctor_name SequenceMatcher_ratio [dr_smith; dr_smithson]
                      "book doctor smith tomorrow" = Returned r.
Proof.
  destruct (match_doctor_name_spec SequenceMatcher_ratio [dr_smith; dr_smithson]
              "book doctor smith tomorrow") as [_ (r & E & _)].
  - intros d [<-|[<-|[]]]; discriminate.
  - intros d [<-|[<-|[]]]; reflexivity.
  - exists r. exact E.
Defined.

(** The example of the specification: "John Smith" is matched, before or
    after "Alice Smithson" in the list. *)
Example match_smith :
  match_doctor_name SequenceMatcher_ratio [dr_smith; dr_smithson]
                    "book doctor smith tomorrow" = Returned (Some dr_smith) /\
  match_doctor_name SequenceMatcher_ratio [dr_smithson; dr_smith]
                    "book doctor smith tomorrow" = Returned (Some dr_smith).
Proof. split; vm_compute; reflexivity. Qed.

(** C7 as stated fails on the code: with a doctor whose name has no word in
    it among the candidates, [match_doctor_name] returns neither a candidate
    nor no match: the [IndexError] of the first word of the name leaves it,
    whatever the other candidates score. *)
Lemma match_doctor_name_blank_name :
  match_doctor_name SequenceMatcher_ratio [dr_smith; dr_blank]
                    "book doctor smith tomorrow" = Raised /\
  match_doctor_name SequenceMatcher_ratio [dr_smith]
                    "book doctor smith tomorrow" = Returned (Some dr_smith).
Proof. split; vm_compute; reflexivity. Qed.

(** ** The date of a voice booking *)

(** C8, as the code has it: tomorrow when the command has "tomorrow" in it;
    today when it has not and has "today" or "aaj" in it; tomorrow
    otherwise. *)
Theorem resolve_relative_date_spec (command : string) (day : pydate) :
  (contains "tomorrow" command = true ->
     resolve_relative_date command day = plus_one_day day) /\
  (contains "tomorrow" command = false ->
     contains "today" command = true \/ contains "aaj" command = true ->
     resolve_relative_date command day = Some day) /\
  (contains "tomorrow" command = false -> contains "today" command = false ->
     contains "aaj" command = false ->
     resolve_relative_date command day = plus_one_day day).
Proof.
  unfold resolve_relative_date. split; [|split].
  - now intros ->.
  - intros -> [->| ->]; [reflexivity|]. now rewrite orb_true_r.
  - now intros -> -> ->.
Qed.

Lemma resolve_relative_date_spec_witness :
  resolve_relative_date "book doctor smith tomorrow" (mkDate 2026 11 4)
  = plus_one_day (mkDate 2026 11 4) /\
  resolve_relative_date "doctor smith aaj" (mkDate 2026 11 4) = Some (mkDate 2026 11 4) /\
  resolve_relative_date "book doctor smith" (mkDate 2026 11 4)
  = plus_one_day (mkDate 2026 11 4).
Proof.
  split; [|split].
  - apply (proj1 (resolve_relative_date_spec "book doctor smith tomorrow"
                    (mkDate 2026 11 4))). reflexivity.
  - apply (proj1 (proj2 (resolve_relative_date_spec "doctor smith aaj"
                           (mkDate 2026 11 4)))); [reflexivity|right; reflexivity].
  - apply (proj2 (proj2 (resolve_relative_date_spec "book doctor smith"
                           (mkDate 2026 11 4)))); reflexivity.
Defined.

(** C8 as stated fails on the code: a command with "today" in it, and
    "tomorrow" too, is booked for tomorrow and not for today. *)
Lemma resolve_relative_date_both_words :
  contains "today" "doctor smith today not tomorrow" = true /\
  resolve_relative_date "doctor smith today not tomorrow" (mkDate 2026 11 4)
  = Some (mkDate 2026 11 5) /\
  Some (mkDate 2026 11 5) <> Some (mkDate 2026 11 4).
Proof. split; [reflexivity|]. split; [reflexivity|discriminate]. Qed.

(** ** Invariant I1 *)

Lemma contiguous_filter d s (l l' : list Appointment) :
  filter (in_partition d s) l' = filter (in_partition d s) l ->
  contiguous d s l -> contiguous d s l'.
Proof. unfold contiguous, partition_numbers. now intros ->. Qed.

(** A new row numbered one past the Pending count of its partition keeps
    every partition contiguous. *)
Lemma contiguous_append d s (appts : list Appointment) utcnow patient d' s' est :
  contiguous d s appts ->
  contiguous d s
    (appts ++ [new_appointment appts utcnow (pending_count d' s' appts + 1)
                               patient d' s' est]).
Proof.
  intros C. unfold contiguous, partition_numbers in *.
  rewrite filter_app. simpl.
  destruct (in_partition d s _) eqn:E.
  - apply in_partition_iff in E as (E1 & E2 & _). simpl in E1, E2. subst d' s'.
    rewrite map_app, length_app. simpl. rewrite Nat.add_1_r, zseq_snoc.
    apply Permutation_app; [exact C|].
    unfold pending_count. now rewrite Z.add_comm.
  - now rewrite app_nil_r.
Qed.

Lemma I1_no_appointments (st : state) : appointments st = [] -> I1 st.
Proof. intros E d s. unfold contiguous, partition_numbers. rewrite E. constructor. Qed.

Lemma booking_preserves_I1 st clk utcnow patient doctor s :
  I1 st -> I1 (snd (patient_dashboard_post st clk utcnow patient doctor s)).
Proof.
  intros H. unfold patient_dashboard_post.
  destruct (get_user st doctor) as [d|]; [|exact H].
  destruct (is_date_available clk d s) as [[|]|]; try exact H.
  destruct (existsb _ _); [exact H|].
  destruct (max_patients d <=? _); [exact H|].
  intros d0 s0. simpl. apply contiguous_append, H.
Qed.


Lemma get_appointment_from_spec id (l : list Appointment) off r :
  get_appointment_from id l off = Some r ->
  (off <= r < off + List.length l)%nat /\ appt_id (row_at l (r - off)) = id.
Proof.
  revert off; induction l as [|a l IH]; intros off; simpl; [discriminate|].
  destruct (Z.eqb_spec (appt_id a) id) as [E|E].
  - intros [= <-]. rewrite Nat.sub_diag. split; [lia|exact E].
  - intros H. apply IH in H as [H1 H2]. split; [lia|].
    unfold row_at in *. replace (r - off)%nat with (S (r - S off)) by lia. exact H2.
Qed.

Lemma get_appointment_spec id (l : list Appointment) r :
  get_appointment id l = Some r ->
  (r < List.length l)%nat /\ appt_id (row_at l r) = id.
Proof.
  intros H. apply get_appointment_from_spec in H as [H1 H2].
  rewrite Nat.sub_0_r in H2. split; [lia|exact H2].
Qed.

(** A completion by the doctor of the appointment keeps I1. *)
Lemma completion_preserves_I1 st current_user id text :
  owns st current_user id ->
  I1 st -> I1 (doctor_dashboard_post st current_user id text).
Proof.
  intros O H. unfold doctor_dashboard_post.
  destruct (get_appointment id (appointments st)) as [r|] eqn:G; [|exact H].
  pose proof (O r G) as Od.
  apply get_appointment_spec in G as [Hr _].
  intros d s. simpl.
  rewrite update_row_same by assumption. simpl.
  set (a := row_at (appointments st) r) in *.
  destruct (Z.eq_dec d (user_id current_user)) as [->|Nd];
    [destruct (string_dec s (date a)) as [->|Ns]|].
  - apply reindex_contiguous.
  - eapply contiguous_filter; [|apply H].
    rewrite reindex_other_partition by congruence.
    apply update_row_filter_out; fold a.
    + destruct (in_partition _ s a) eqn:E; [|reflexivity].
      apply in_partition_iff in E. now elim Ns.
    + unfold in_partition. simpl. now rewrite andb_false_r.
  - eapply contiguous_filter; [|apply H].
    rewrite reindex_other_partition by congruence.
    apply update_row_filter_out; fold a.
    + destruct (in_partition d s a) eqn:E; [|reflexivity].
      apply in_partition_iff in E. elim Nd. now rewrite <- Od.
    + unfold in_partition. simpl. now rewrite andb_false_r.
Qed.



(** C2 on the code: I1 is lost when a doctor posts the form for an
    appointment of another doctor.  The row is completed, the partition of the
    doctor who posted is renumbered, and the partition of the appointment
    keeps the positions 2 and 3. *)
Lemma completion_by_other_doctor :
  I1 st_two_doctors /\
  partition_numbers 1 "2026-11-05"
    (appointments (doctor_dashboard_post st_two_doctors dr_smithson 1 "rest")) = [2; 3] /\
  ~ I1 (doctor_dashboard_post st_two_doctors dr_smithson 1 "rest").
Proof.
  split; [|split].
  - change st_two_doctors with
      (snd (patient_dashboard_post
              (snd (patient_dashboard_post
                      (snd (patient_dashboard_post st_empty clk_morning 100 7 1
                                                   "2026-11-05"))
                      clk_morning 101 8 1 "2026-11-05"))
              clk_morning 102 9 1 "2026-11-05")).
    do 3 apply booking_preserves_I1. now apply I1_no_appointments.
  - reflexivity.
  - intros H. specialize (H 1 "2026-11-05").
    unfold contiguous in H.
    change (Permutation [2; 3] [1; 2]) in H.
    apply Permutation_sym in H.
    apply (Permutation_in 1) in H; [|now left].
    destruct H as [H|[H|[]]]; discriminate.
Qed.

(** ** [reindex_appointments], row by row *)

Lemma reindex_loop_at doctor rs i (l : list Appointment) k n :
  NoDup rs -> nth_error rs k = Some n -> (n < List.length l)%nat ->
  row_at (reindex_loop doctor rs i l) n = renumber doctor (i + Z.of_nat k) (row_at l n).
Proof.
  revert i l k; induction rs as [|r rs IH]; intros i l k N E B;
    [destruct k; discriminate|].
  inversion N as [|? ? Hr N']; subst. destruct k as [|k]; simpl in *.
  - injection E as ->. rewrite reindex_loop_other by assumption.
    rewrite update_row_same by assumption. now rewrite Z.add_0_r.
  - assert (n <> r) by (intros ->; apply Hr; eauto using nth_error_In).
    rewrite (IH (i + 1) _ k) by (auto; now rewrite update_row_length).
    rewrite update_row_other by assumption. f_equal. lia.
Qed.

Lemma insert_by_ext key key' r (l : list row) :
  (forall x, key x = key' x) -> insert_by key r l = insert_by key' r l.
Proof.
  intros E. induction l as [|x l IH]; simpl; auto.
  rewrite !E, IH. reflexivity.
Qed.

Lemma order_by_ext key key' (rs : list row) :
  (forall x, key x = key' x) -> order_by key rs = order_by key' rs.
Proof.
  intros E. induction rs as [|r rs IH]; simpl; auto.
  rewrite IH. now apply insert_by_ext.
Qed.

Lemma row_at_map {B} (g : Appointment -> B) (l l' : list Appointment) r :
  map g l = map g l' -> g (row_at l r) = g (row_at l' r).
Proof.
  intros E. unfold row_at.
  rewrite <- !(map_nth g). now rewrite E.
Qed.

Lemma reindex_pending_rows doctor s appts :
  pending_rows (user_id doctor) s (reindex_appointments doctor s appts)
  = pending_rows (user_id doctor) s appts.
Proof.
  unfold pending_rows. rewrite reindex_select.
  apply order_by_ext. intros r. unfold created_of.
  apply row_at_map. unfold reindex_appointments. now apply reindex_loop_map.
Qed.

(** Reindexing a second time assigns what the first time assigned. *)
Lemma reindex_idempotent doctor s appts :
  reindex_appointments doctor s (reindex_appointments doctor s appts)
  = reindex_appointments doctor s appts.
Proof.
  set (res := reindex_appointments doctor s appts).
  change (reindex_appointments doctor s res)
    with (reindex_loop doctor (pending_rows (user_id doctor) s res) 1 res).
  unfold res at 1. rewrite reindex_pending_rows.
  set (rs := pending_rows (user_id doctor) s appts).
  assert (L : List.length res = List.length appts)
    by apply reindex_loop_length.
  apply (nth_ext _ _ no_row no_row); [apply reindex_loop_length|].
  intros n Hn. rewrite reindex_loop_length in Hn.
  change (row_at (reindex_loop doctor rs 1 res) n = row_at res n).
  destruct (in_dec Nat.eq_dec n rs) as [I|I].
  - destruct (In_nth_error _ _ I) as [k Hk].
    assert (N : NoDup rs) by apply pending_rows_NoDup.
    assert (B : (n < List.length appts)%nat) by (eapply pending_rows_bound; exact I).
    rewrite (reindex_loop_at doctor rs 1 res k n N Hk) by lia.
    change res with (reindex_loop doctor rs 1 appts).
    rewrite (reindex_loop_at doctor rs 1 appts k n N Hk B).
    reflexivity.
  - now rewrite reindex_loop_other.
Qed.

(** The numbering of [reindex_appointments], in full: the Pending rows of the
    partition, taken by creation time, get the positions 1, 2, 3, ... and the
    estimates of [calculate_estimated_time] at these positions; no other row
    is written. *)
Theorem reindex_in_creation_order (doctor : User) (s : string) (appts : list Appointment) :
  let rs := pending_rows (user_id doctor) s appts in
  let res := reindex_appointments doctor s appts in
  Permutation (select (in_partition (user_id doctor) s) appts) rs /\
  StronglySorted (fun a b => created_of appts a <= created_of appts b) rs /\
  map (fun r => appointment_number (row_at res r)) rs = zseq 1 (List.length rs) /\
  map (fun r => estimated_time (row_at res r)) rs
  = map (calculate_estimated_time doctor) (zseq 1 (List.length rs)) /\
  (forall r, ~ In r rs -> row_at res r = row_at appts r) /\
  contiguous (user_id doctor) s res.
Proof.
  intros rs res. split; [apply pending_rows_perm|].
  split; [apply order_by_sorted|].
  split; [apply reindex_loop_numbers;
          [apply pending_rows_NoDup | apply pending_rows_bound]|].
  split; [apply reindex_loop_estimates;
          [apply pending_rows_NoDup | apply pending_rows_bound]|].
  split; [intros r H; now apply reindex_loop_other | apply reindex_contiguous].
Qed.

(** ** The completion branch of [doctor_dashboard] *)

Lemma get_appointment_from_map id (l l' : list Appointment) off :
  map appt_id l = map appt_id l' ->
  get_appointment_from id l off = get_appointment_from id l' off.
Proof.
  revert l' off; induction l as [|a l IH]; intros [|a' l'] off H; simpl in *;
    try discriminate; auto.
  injection H as H1 H2. rewrite H1. now rewrite (IH l' (S off) H2).
Qed.

Lemma update_row_fix r f (l : list Appointment) :
  f (row_at l r) = row_at l r -> update_row r f l = l.
Proof.
  unfold row_at. revert r; induction l as [|a l IH]; intros [|r] H; simpl in *; auto.
  - now rewrite H.
  - now rewrite IH.
Qed.

(** A row that is not Pending is not written by [reindex_appointments]. *)
Lemma reindex_not_pending doctor s appts r :
  status (row_at appts r) <> Pending ->
  row_at (reindex_appointments doctor s appts) r = row_at appts r.
Proof.
  intros H. apply reindex_loop_other. intros I.
  eapply Permutation_in in I; [|symmetry; apply order_by_perm].
  apply select_in_partition, in_partition_iff in I. tauto.
Qed.

(** C9, as the code has it, for a doctor who completes an appointment of
    theirs.  When no appointment has the id, the state stays as it is.  When
    one has, Pending or already Completed, its status becomes Completed and
    its prescription the text given, its other columns stay; the Pending rows
    of the doctor and of the date of the appointment are reindexed, so their
    positions are 1, ..., N; and posting the same form again changes
    nothing. *)
Theorem complete_appointment_spec (st : state) (current_user : User) (id : Z)
    (text : string) :
  match get_appointment id (appointments st) with
  | None => doctor_dashboard_post st current_user id text = st
  | Some r =>
      let a := row_at (appointments st) r in
      let st' := doctor_dashboard_post st current_user id text in
      doctor_id a = user_id current_user ->
      appt_id a = id /\
      row_at (appointments st') r = complete text a /\
      status (row_at (appointments st') r) = Completed /\
      prescription (row_at (appointments st') r) = Some text /\
      appointments st'
      = reindex_appointments current_user (date a)
                             (update_row r (complete text) (appointments st)) /\
      users st' = users st /\
      contiguous (doctor_id a) (date a) (appointments st') /\
      doctor_dashboard_post st' current_user id text = st'
  end.
Proof.
  destruct (get_appointment id (appointments st)) as [r|] eqn:G.
  - intros a st' Own.
    pose proof (get_appointment_spec _ _ _ G) as [Hr Hid].
    assert (E : appointments st'
                = reindex_appointments current_user (date a)
                    (update_row r (complete text) (appointments st))).
    { unfold st', doctor_dashboard_post. rewrite G. simpl.
      now rewrite update_row_same by assumption. }
    assert (Row : row_at (appointments st') r = complete text a).
    { rewrite E, reindex_not_pending; rewrite update_row_same by assumption;
        [reflexivity|discriminate]. }
    split; [exact Hid|]. split; [exact Row|].
    split; [now rewrite Row|]. split; [now rewrite Row|].
    split; [exact E|].
    split; [unfold st', doctor_dashboard_post; now rewrite G|].
    split; [rewrite E, Own; apply reindex_contiguous|].
    assert (G' : get_appointment id (appointments st') = Some r).
    { rewrite <- G. unfold get_appointment. apply get_appointment_from_map.
      rewrite E. unfold reindex_appointments.
      rewrite reindex_loop_map by reflexivity. now apply update_row_map. }
    unfold doctor_dashboard_post at 1. rewrite G'.
    rewrite (update_row_fix r (complete text) (appointments st'))
      by (now rewrite Row).
    rewrite Row. simpl date.
    rewrite E at 1. rewrite reindex_idempotent, <- E.
    unfold st', doctor_dashboard_post. rewrite G. reflexivity.
  - unfold doctor_dashboard_post. now rewrite G.
Qed.

Lemma complete_appointment_spec_witness :
  let st' := doctor_dashboard_post st_two_doctors dr_smith 1 "rest" in
  partition_numbers 1 "2026-11-05" (appointments st') = [1; 2] /\
  status (row_at (appointments st') 0) = Completed /\
  doctor_dashboard_post st' dr_smith 1 "rest" = st' /\
  doctor_dashboard_post st_two_doctors dr_smith 99 "rest" = st_two_doctors.
Proof.
  pose proof (complete_appointment_spec st_two_doctors dr_smith 1 "rest") as H.
  pose proof (complete_appointment_spec st_two_doctors dr_smith 99 "rest") as H'.
  simpl in H, H'.
  destruct (H eq_refl) as (_ & _ & S & _ & _ & _ & _ & I).
  intros st'. split; [reflexivity|]. split; [exact S|]. split; [exact I|exact H'].
Defined.

(** C9 as stated fails on the code: the form posted for an appointment that is
    already Completed is not refused and does not leave the state as it was;
    the prescription is written over. *)
Lemma completed_again_overwrites :
  get_appointment 1 (appointments st_seen) = Some O /\
  status (row_at (appointments st_seen) 0) = Completed /\
  prescription (row_at (appointments st_seen) 0) = Some "rest" /\
  prescription (row_at (appointments (doctor_dashboard_post st_seen dr_smith 1 "walk")) 0)
  = Some "walk" /\
  doctor_dashboard_post st_seen dr_smith 1 "walk" <> st_seen.
Proof.
  repeat (split; [reflexivity|]). discriminate.
Qed.

(** ** The voice path and the dashboard *)

(** C6 on the code: the voice path does not make the checks of the
    dashboard.  A patient who has a Pending appointment with the doctor tomorrow books a second one by
    voice, where the dashboard answers DuplicateBooking; and after the end of
    the window a patient books today by voice, where the dashboard answers
    DateNotBookable. *)
Lemma voice_skips_checks :
  (exists a,
      voice_turn SequenceMatcher_ratio st_booked (mkDate 2026 11 4) 200 7
                 (Some "Book doctor Smith tomorrow")
      = (VoiceBooked a, mkState (users st_booked) (appointments st_booked ++ [a])) /\
      patient_id a = 7 /\ doctor_id a = 1 /\ date a = "2026-11-05" /\
      appointment_number a = 2) /\
  patient_dashboard_post st_booked clk_morning 200 7 1 "2026-11-05"
  = (DuplicateBooking, st_booked) /\
  (exists a,
      fst (voice_turn SequenceMatcher_ratio st_booked (today clk_evening) 200 9
                      (Some "book doctor smith today")) = VoiceBooked a /\
      date a = "2026-11-04") /\
  patient_dashboard_post st_booked clk_evening 200 9 1 "2026-11-04"
  = (DateNotBookable, st_booked).
Proof.
  split; [|split; [|split]].
  - eexists. split; [vm_compute; reflexivity|]. repeat split.
  - vm_compute. reflexivity.
  - eexists. split; [vm_compute; reflexivity|]. reflexivity.
  - vm_compute. reflexivity.
Qed.

(** ** Invariants I2 and I3 *)



Lemma completion_users st current_user id text :
  users (doctor_dashboard_post st current_user id text) = users st.
Proof.
  unfold doctor_dashboard_post. now destruct (get_appointment _ _).
Qed.

Lemma booking_users st clk utcnow patient doctor s :
  users (snd (patient_dashboard_post st clk utcnow patient doctor s)) = users st.
Proof.
  unfold patient_dashboard_post.
  destruct (get_user st doctor) as [d|]; [|reflexivity].
  destruct (is_date_available clk d s) as [[|]|]; try reflexivity.
  destruct (existsb _ _); [reflexivity|].
  now destruct (max_patients d <=? _).
Qed.

Lemma voice_turn_users ratio st day utcnow patient heard :
  users (snd (voice_turn ratio st day utcnow patient heard)) = users st.
Proof.
  unfold voice_turn.
  destruct heard as [text|]; [|reflexivity].
  destruct (existsb _ _); [reflexivity|].
  destruct (match_doctor_name _ _ _) as [[d|]|]; try reflexivity.
  destruct (resolve_relative_date _ _) as [ds|]; [|reflexivity].
  now destruct (max_patients d <=? _).
Qed.


Lemma get_user_unique st d :
  unique_ids st -> In d (users st) -> get_user st (user_id d) = Some d.
Proof.
  unfold unique_ids, get_user.
  induction (users st) as [|u l IH]; intros N I; [destruct I|].
  simpl in *. inversion N as [|? ? Hu N']; subst.
  destruct (Z.eqb_spec (user_id u) (user_id d)) as [E|E].
  - destruct I as [->|I]; [reflexivity|].
    elim Hu. rewrite E. now apply in_map.
  - destruct I as [->|I]; [now elim E|]. now apply IH.
Qed.



Lemma match_loop_In ratio doctors cc :
  forall best h d h',
    match_loop ratio doctors cc best h = Returned (Some d, h') ->
    best = Some d \/ In d doctors.
Proof.
  induction doctors as [|d0 rest IH]; intros best h d h' E; simpl in E.
  - injection E as -> _. now left.
  - destruct (score ratio cc d0) as [r|]; [|discriminate].
    destruct (float_ltb h r); apply IH in E.
    + destruct E as [[= ->]|E]; right; [now left|now right].
    + destruct E as [E|E]; [now left|right; now right].
Qed.

(** The doctor matched is one of the candidates. *)
Lemma match_doctor_name_In ratio doctors command d :
  match_doctor_name ratio doctors command = Returned (Some d) -> In d doctors.
Proof.
  unfold match_doctor_name.
  destruct (match_loop _ _ _ _ _) as [[[b|] h]|] eqn:E; try discriminate.
  destruct (float_leb float_0_4 h); [|discriminate].
  intros [= <-]. apply match_loop_In in E as [E|E]; [discriminate|exact E].
Qed.


Lemma handle_users ratio st req : users (handle ratio st req) = users st.
Proof.
  destruct req; simpl;
    auto using booking_users, voice_turn_users, completion_users.
Qed.




Lemma same_booking_other p d s p' d' s' a :
  same_booking p d s a = true -> (p', d', s') <> (p, d, s) ->
  same_booking p' d' s' a = false.
Proof.
  intros H Ne. apply same_booking_iff in H as (<- & <- & <-).
  destruct (same_booking p' d' s' a) eqn:E; [|reflexivity].
  apply same_booking_iff in E as (<- & <- & <-). now elim Ne.
Qed.





(** A second booking of the same patient with the same doctor on the same
    date, once the first has succeeded, is refused with DuplicateBooking and
    creates no appointment. *)
Theorem second_booking_refused (st st' : state) (clk clk' : clock)
    (utcnow utcnow' patient doctor : Z) (s : string) (a : Appointment) (d : User) :
  patient_dashboard_post st clk utcnow patient doctor s = (Booked a, st') ->
  get_user st' doctor = Some d ->
  is_date_available clk' d s = Returned true ->
  patient_dashboard_post st' clk' utcnow' patient doctor s = (DuplicateBooking, st').
Proof.
  intros B G A.
  assert (X : existsb (same_booking patient doctor s) (appointments st') = true).
  { unfold patient_dashboard_post in B.
    destruct (get_user st doctor) as [d0|]; [|discriminate].
    destruct (is_date_available clk d0 s) as [[|]|]; try discriminate.
    destruct (existsb _ _); [discriminate|].
    destruct (max_patients d0 <=? _); [discriminate|].
    injection B as <- <-. simpl.
    apply has_booking_iff.
    eexists. split; [apply in_or_app; right; now left|]. simpl. auto. }
  unfold patient_dashboard_post. now rewrite G, A, X.
Qed.

Lemma second_booking_refused_witness :
  patient_dashboard_post
    (snd (patient_dashboard_post st_empty clk_morning 100 7 1 "2026-11-05"))
    clk_closing 101 7 1 "2026-11-05"
  = (DuplicateBooking,
     snd (patient_dashboard_post st_empty clk_morning 100 7 1 "2026-11-05")).
Proof.
  eapply (second_booking_refused st_empty _ clk_morning clk_closing 100 101 7 1
                                 "2026-11-05"); reflexivity.
Defined.

(** A command with a stop word anywhere in it ends the voice loop, whatever
    else it says, and the state stays as it is. *)
Theorem stop_word_stops (ratio : string -> string -> pyfloat) (st : state)
    (day : pydate) (utcnow patient : Z) (text word : string)
    (rest : list (pydate * Z * option string)) :
  In word stop_words -> contains word (lower text) = true ->
  voice_turn ratio st day utcnow patient (Some text) = (SessionStopped, st) /\
  recognize_and_book ratio st patient ((day, utcnow, Some text) :: rest)
  = (Some SessionStopped, st).
Proof.
  intros I C.
  assert (E : voice_turn ratio st day utcnow patient (Some text) = (SessionStopped, st)).
  { unfold voice_turn.
    assert (existsb (fun w => contains w (lower text)) stop_words = true) as ->;
      [|reflexivity].
    apply existsb_exists. exists word. auto. }
  split; [exact E|]. cbn [recognize_and_book]. now rewrite E.
Qed.

Lemma stop_word_stops_witness :
  voice_turn SequenceMatcher_ratio st_booked (mkDate 2026 11 4) 200 7
             (Some "Book doctor Smith tomorrow, no, cancel")
  = (SessionStopped, st_booked).
Proof.
  apply (stop_word_stops SequenceMatcher_ratio st_booked (mkDate 2026 11 4) 200 7
                         "Book doctor Smith tomorrow, no, cancel" "cancel" []).
  - right; right; now left.
  - reflexivity.
Defined.

(** ** [valid_email] *)

Lemma append_empty_r (s : string) : (s ++ "")%string = s.
Proof. induction s as [|c s IH]; simpl; [reflexivity|now rewrite IH]. Qed.

Lemma append_assoc (a b c : string) : ((a ++ b) ++ c)%string = (a ++ (b ++ c))%string.
Proof. induction a as [|x a IH]; simpl; [reflexivity|now rewrite IH]. Qed.

Lemma append_empty (a b : string) : (a ++ b)%string = "" -> a = "" /\ b = "".
Proof. destruct a; simpl; [auto|discriminate]. Qed.

Lemma append_length (a b : string) :
  String.length (a ++ b) = (String.length a + String.length b)%nat.
Proof. induction a as [|x a IH]; simpl; [reflexivity|now rewrite IH]. Qed.

Lemma nullable_matches (r : regex) : nullable r = true <-> matches r "".
Proof.
  split.
  - induction r as [| |p|r1 IH1 r2 IH2|r1 IH1 r2 IH2|r1 IH1]; simpl; intros H;
      try discriminate.
    + constructor.
    + apply andb_true_iff in H as [H1 H2].
      change "" with ("" ++ "")%string. constructor; auto.
    + apply orb_true_iff in H as [H|H]; [apply matches_alt_l|apply matches_alt_r]; auto.
    + constructor.
  - intros H. remember "" as s eqn:E.
    induction H as [|p c Hp|r1 r2 s1 s2 H1 IH1 H2 IH2|r1 r2 s H IH|r1 r2 s H IH
                    |r|r s1 s2 H1 IH1 H2 IH2]; simpl; auto.
    + discriminate.
    + apply append_empty in E as [-> ->]. now rewrite IH1, IH2.
    + now rewrite IH.
    + rewrite IH by assumption. apply orb_true_r.
Qed.

(** A repetition that matches a string beginning with [c] matches a first
    piece beginning with [c]. *)
Lemma matches_star_head (r : regex) (c : ascii) (s : string) :
  matches (Star r) (String c s) ->
  exists s1 s2, s = (s1 ++ s2)%string /\ matches r (String c s1) /\ matches (Star r) s2.
Proof.
  intros H. remember (Star r) as r0 eqn:Er. remember (String c s) as s0 eqn:Es.
  revert s Es.
  induction H as [|p c' Hp|r1 r2 s1 s2 H1 IH1 H2 IH2|r1 r2 s' H IH|r1 r2 s' H IH
                  |r'|r' s1 s2 H1 IH1 H2 IH2]; intros s Es; try discriminate.
  injection Er as ->. destruct s1 as [|c1 s1]; simpl in Es.
  - now apply IH2.
  - injection Es as -> <-. exists s1, s2. auto.
Qed.

Lemma matches_seq_inv (r1 r2 : regex) (s : string) :
  matches (Seq r1 r2) s <->
  exists s1 s2, s = (s1 ++ s2)%string /\ matches r1 s1 /\ matches r2 s2.
Proof.
  split.
  - intros H. inversion H; subst. eauto.
  - intros (s1 & s2 & -> & H1 & H2). now constructor.
Qed.

Lemma derive_matches (r : regex) :
  forall c s, matches (derive c r) s <-> matches r (String c s).
Proof.
  induction r as [| |p|r1 IH1 r2 IH2|r1 IH1 r2 IH2|r1 IH1]; intros c s; simpl.
  - split; intros H; inversion H.
  - split; intros H; inversion H.
  - destruct (p c) eqn:Hp; split; intros H; inversion H; subst.
    + now constructor.
    + constructor.
    + congruence.
  - split.
    + intros H.
      assert (S : matches (Seq (derive c r1) r2) s -> matches (Seq r1 r2) (String c s)).
      { intros H'. apply matches_seq_inv in H' as (s1 & s2 & -> & M1 & M2).
        apply IH1 in M1.
        change (String c (s1 ++ s2)) with (String c s1 ++ s2)%string.
        now constructor. }
      destruct (nullable r1) eqn:N; [|now apply S].
      inversion H as [| | |? ? ? M|? ? ? M| |]; subst; [now apply S|].
      apply IH2 in M. apply nullable_matches in N.
      change (String c s) with ("" ++ String c s)%string. now constructor.
    + intros H. apply matches_seq_inv in H as (s1 & s2 & E & M1 & M2).
      destruct s1 as [|c1 s1]; simpl in E.
      * subst s2. apply nullable_matches in M1. rewrite M1.
        apply matches_alt_r. now apply IH2.
      * injection E as <- ->.
        assert (matches (Seq (derive c r1) r2) (s1 ++ s2)%string)
          by (constructor; [now apply IH1|assumption]).
        destruct (nullable r1); [now apply matches_alt_l|assumption].
  - split; intros H; inversion H; subst.
    + apply matches_alt_l. now apply IH1.
    + apply matches_alt_r. now apply IH2.
    + apply matches_alt_l. now apply IH1.
    + apply matches_alt_r. now apply IH2.
  - split.
    + intros H. apply matches_seq_inv in H as (s1 & s2 & -> & M1 & M2).
      apply IH1 in M1.
      change (String c (s1 ++ s2)) with (String c s1 ++ s2)%string.
      now constructor.
    + intros H. apply matches_star_head in H as (s1 & s2 & -> & M1 & M2).
      constructor; [now apply IH1|assumption].
Qed.

(** The matcher decides the patterns. *)
Lemma fullmatch_matches (r : regex) (s : string) : fullmatch r s = true <-> matches r s.
Proof.
  revert r; induction s as [|c s IH]; intros r; simpl.
  - apply nullable_matches.
  - rewrite IH. apply derive_matches.
Qed.

Lemma matches_star_class (p : ascii -> bool) (s : string) :
  matches (Star (Class p)) s <-> all_chars p s = true.
Proof.
  split.
  - intros H. remember (Star (Class p)) as r eqn:E.
    induction H as [|p' c Hp|r1 r2 s1 s2 H1 IH1 H2 IH2|r1 r2 s H IH|r1 r2 s H IH
                    |r|r s1 s2 H1 IH1 H2 IH2]; try discriminate; [reflexivity|].
    injection E as ->. inversion H1; subst. simpl.
    rewrite IH2 by reflexivity. now rewrite andb_true_r.
  - induction s as [|c s IH]; simpl; intros H; [constructor|].
    apply andb_true_iff in H as [H1 H2].
    change (String c s) with (String c "" ++ s)%string.
    constructor; [now constructor|auto].
Qed.

Lemma matches_one_or_more (p : ascii -> bool) (s : string) :
  matches (one_or_more (Class p)) s <-> s <> "" /\ all_chars p s = true.
Proof.
  unfold one_or_more. split.
  - intros H. inversion H as [| |? ? s1 s2 M1 M2| | | |]; subst.
    inversion M1; subst. apply matches_star_class in M2. simpl.
    split; [discriminate|]. now rewrite M2, andb_true_r.
  - intros [N A]. destruct s as [|c s]; [now elim N|]. simpl in A.
    apply andb_true_iff in A as [A1 A2].
    change (String c s) with (String c "" ++ s)%string.
    constructor; [now constructor|now apply matches_star_class].
Qed.

Lemma matches_two_or_more (p : ascii -> bool) (s : string) :
  matches (two_or_more (Class p)) s <-> (2 <= String.length s)%nat /\ all_chars p s = true.
Proof.
  unfold two_or_more. split.
  - intros H. inversion H as [| |? ? s1 s2 M1 M2| | | |]; subst.
    inversion M1; subst. apply (matches_one_or_more p) in M2 as [N A].
    destruct s2 as [|c2 s2]; [now elim N|]. simpl in *.
    split; [lia|]. now rewrite A, andb_true_r.
  - intros [L A]. destruct s as [|c s]; simpl in *; [lia|].
    apply andb_true_iff in A as [A1 A2].
    change (String c s) with (String c "" ++ s)%string.
    constructor; [now constructor|].
    apply (matches_one_or_more p). split; [|assumption].
    destruct s; simpl in L; [lia|discriminate].
Qed.

Lemma matches_char (x : ascii) (s : string) :
  matches (Class (Ascii.eqb x)) s <-> s = String x "".
Proof.
  split.
  - intros H. inversion H as [|? c Hc| | | | |]; subst.
    apply Ascii.eqb_eq in Hc. now subst.
  - intros ->. constructor. apply Ascii.eqb_refl.
Qed.

Lemma matches_end_of_string (s : string) :
  matches end_of_string s <-> s = "" \/ s = String newline "".
Proof.
  unfold end_of_string. split.
  - intros H. inversion H as [| | |? ? ? M|? ? ? M| |]; subst.
    + inversion M. now left.
    + apply matches_char in M. now right.
  - intros [->| ->]; [apply matches_alt_l; constructor|].
    apply matches_alt_r. now apply matches_char.
Qed.

(** The addresses [valid_email] accepts: one or more characters of
    [a-zA-Z0-9._%+-], an at sign, one or more characters of [a-zA-Z0-9.-], a
    dot, two or more letters, and then nothing or one newline. *)
Theorem valid_email_shape (email : string) :
  valid_email email = true <->
  exists l d t e,
    email = (l ++ "@" ++ d ++ "." ++ t ++ e)%string /\
    l <> "" /\ all_chars local_char l = true /\
    d <> "" /\ all_chars domain_char d = true /\
    (2 <= String.length t)%nat /\ all_chars is_letter t = true /\
    (e = "" \/ e = String newline "").
Proof.
  unfold valid_email, email_pattern. rewrite fullmatch_matches. split.
  - intros H.
    apply matches_seq_inv in H as (l & s1 & -> & Hl & H).
    apply matches_seq_inv in H as (a & s2 & -> & Ha & H).
    apply matches_seq_inv in H as (d & s3 & -> & Hd & H).
    apply matches_seq_inv in H as (o & s4 & -> & Ho & H).
    apply matches_seq_inv in H as (t & e & -> & Ht & He).
    apply matches_char in Ha, Ho. subst a o.
    apply matches_one_or_more in Hl as [? ?], Hd as [? ?].
    apply matches_two_or_more in Ht as [? ?].
    apply matches_end_of_string in He.
    exists l, d, t, e. repeat split; auto.
  - intros (l & d & t & e & -> & Nl & Al & Nd & Ad & Lt & At & He).
    constructor; [now apply matches_one_or_more|].
    change ("@" ++ d ++ "." ++ t ++ e)%string
      with (String "@" "" ++ (d ++ String "." "" ++ (t ++ e)))%string.
    constructor; [now apply matches_char|].
    constructor; [now apply matches_one_or_more|].
    constructor; [now apply matches_char|].
    constructor; [now apply matches_two_or_more|now apply matches_end_of_string].
Qed.





(** ** Accounts *)

Lemma lower_char_idempotent (c : ascii) : lower_char (lower_char c) = lower_char c.
Proof. destruct c as [[|] [|] [|] [|] [|] [|] [|] [|]]; reflexivity. Qed.

Lemma lower_idempotent (s : string) : lower (lower s) = lower s.
Proof.
  induction s as [|c s IH]; simpl; [reflexivity|].
  now rewrite lower_char_idempotent, IH.
Qed.

Lemma next_user_id_fresh (accts : list Account) (a : Account) :
  In a accts -> user_id (user_row a) < next_user_id accts.
Proof.
  unfold next_user_id. induction accts as [|b l IH]; [intros []|].
  cbn [fold_right]. intros [->|H]; [lia|]. specialize (IH H). lia.
Qed.

Lemma find_by_email_none (accts : list Account) (address : string) :
  find_by_email accts address = None -> ~ In address (map email accts).
Proof.
  unfold find_by_email. intros F H. apply in_map_iff in H as (a & <- & I).
  pose proof (find_none _ _ F a I) as E. simpl in E.
  now rewrite String.eqb_refl in E.
Qed.

Lemma register_keeps_accounts_ok hash accts salt nm em pw rl sp :
  accounts_ok accts -> accounts_ok (snd (register hash accts salt nm em pw rl sp)).
Proof.
  intros (E & K & V). unfold register.
  destruct (valid_email (lower em)) eqn:Ve; simpl; [|now repeat split].
  destruct (find_by_email accts (lower em)) eqn:F; simpl; [now repeat split|].
  repeat split.
  - rewrite map_app. simpl. apply NoDup_app; [exact E|repeat constructor; tauto|].
    intros x Hx [<-|[]]. now apply (find_by_email_none _ _ F).
  - rewrite map_app. simpl. apply NoDup_app; [exact K|repeat constructor; tauto|].
    intros x Hx [<-|[]]. apply in_map_iff in Hx as (a & Ha & I).
    apply next_user_id_fresh in I. lia.
  - apply Forall_app. split; [exact V|].
    constructor; [|constructor]. simpl. split; [exact Ve|apply lower_idempotent].
Qed.

(** The accounts stay well formed through every sequence of registrations,
    accepted or refused: the addresses are distinct, valid and in lower case,
    and the keys are distinct. *)
Theorem registrations_keep_accounts_ok (hash : string -> string -> string)
    (forms : list registration) (accts : list Account) :
  accounts_ok accts -> accounts_ok (fold_left (register_form hash) forms accts).
Proof.
  revert accts; induction forms as [|f forms IH]; intros accts H; [exact H|].
  simpl. apply IH. destruct f as [[[[[salt nm] em] pw] rl] sp].
  now apply register_keeps_accounts_ok.
Qed.

Lemma registrations_keep_accounts_ok_witness :
  accounts_ok
    (fold_left (register_form (fun salt pw => (salt ++ pw)%string))
               [("s1", "John Smith", "John@Clinic.org", "pw", "Doctor", Some "ENT");
                ("s2", "Other John", "john@clinic.org", "pw", "patient", None);
                ("s3", "Nobody", "not an address", "pw", "patient", None)]
               []).
Proof.
  apply registrations_keep_accounts_ok.
  repeat split; constructor.
Defined.

Lemma find_by_email_last (accts : list Account) (a : Account) (address : string) :
  email a = address -> find_by_email accts address = None ->
  find_by_email (accts ++ [a]) address = Some a.
Proof.
  intros <-. unfold find_by_email. induction accts as [|b l IH]; simpl.
  - now rewrite String.eqb_refl.
  - destruct (String.eqb (email b) (email a)); [discriminate|exact IH].
Qed.

(** A user who has registered logs in with the same address, password and
    role, in whatever case the address and the role are typed, and is shown
    the dashboard of the role, provided the hash of the password checks
    against the password. *)
Theorem register_then_login (hash : string -> string -> string)
    (check : string -> string -> bool) (accts accts' : list Account)
    (salt nm em pw rl em' rl' : string) (sp : option string) (a : Account) :
  register hash accts salt nm em pw rl sp = (Registered a, accts') ->
  check (hash salt pw) pw = true ->
  lower em' = lower em -> lower rl' = lower rl ->
  login check accts' em' pw rl'
  = LoggedIn a match dashboard_of (lower rl) with
               | Some page => page
               | None => "login"
               end.
Proof.
  unfold register, login. intros R C -> ->.
  destruct (valid_email (lower em)) eqn:Ve; simpl in *; [|discriminate].
  destruct (find_by_email accts (lower em)) eqn:F; [discriminate|].
  injection R as <- <-.
  erewrite find_by_email_last; [|reflexivity|exact F]. simpl.
  now rewrite C, String.eqb_refl.
Qed.

Lemma register_then_login_witness :
  login String.eqb
        (snd (register (fun _ pw => pw) [] "s1" "John Smith" "John@Clinic.org" "pw"
                       "Doctor" (Some "ENT")))
        "JOHN@clinic.org" "pw" "doctor"
  = LoggedIn (mkAccount (mkUser 1 "John Smith" "doctor" true (Some "09:00–17:00") 5 15)
                        "john@clinic.org" "pw" (Some "ENT"))
             "doctor_dashboard".
Proof.
  apply (register_then_login (fun _ pw => pw) String.eqb [] _ "s1" "John Smith"
                             "John@Clinic.org" "pw" "Doctor" "JOHN@clinic.org" "doctor"
                             (Some "ENT")); reflexivity.
Defined.

(** ** The pages *)

Lemma insert_row_perm le a (l : list Appointment) :
  Permutation (a :: l) (insert_row le a l).
Proof.
  induction l as [|x l IH]; simpl; auto.
  destruct (le a x); auto. rewrite perm_swap. now constructor.
Qed.

(** A page shows the rows of its query, each once. *)
Lemma sort_rows_perm le (l : list Appointment) : Permutation l (sort_rows le l).
Proof.
  induction l as [|a l IH]; simpl; auto.
  rewrite <- insert_row_perm. now constructor.
Qed.

Lemma sort_rows_In le (l : list Appointment) a : In a (sort_rows le l) <-> In a l.
Proof.
  split; apply Permutation_in; [symmetry|]; apply sort_rows_perm.
Qed.

Lemma insert_by_number_sorted a (l : list Appointment) :
  StronglySorted (fun x y => appointment_number x <= appointment_number y) l ->
  StronglySorted (fun x y => appointment_number x <= appointment_number y)
                 (insert_row by_number a l).
Proof.
  induction 1 as [|x l S IH F]; simpl.
  - repeat constructor.
  - unfold by_number at 1.
    destruct (Z.leb_spec (appointment_number a) (appointment_number x)).
    + constructor; [now constructor|]. constructor; auto.
      eapply Forall_impl; [|exact F]. simpl; intros; lia.
    + constructor; auto.
      eapply Permutation_Forall; [apply insert_row_perm|]. constructor; auto; lia.
Qed.

Lemma sort_by_number_sorted (l : list Appointment) :
  StronglySorted (fun x y => appointment_number x <= appointment_number y)
                 (sort_rows by_number l).
Proof.
  induction l as [|a l IH]; simpl; [constructor|]. now apply insert_by_number_sorted.
Qed.

Lemma filter_sorted {A} (R : A -> A -> Prop) keep (l : list A) :
  StronglySorted R l -> StronglySorted R (filter keep l).
Proof.
  induction 1 as [|x l S IH F]; simpl; [constructor|].
  destruct (keep x); auto. constructor; auto.
  apply Forall_forall. intros y Hy. apply filter_In in Hy as [Hy _].
  eapply Forall_forall in F; eauto.
Qed.

Lemma map_sorted {A B} (f : A -> B) (R : B -> B -> Prop) (l : list A) :
  StronglySorted (fun x y => R (f x) (f y)) l -> StronglySorted R (map f l).
Proof.
  induction 1 as [|x l S IH F]; simpl; constructor; auto.
  apply Forall_forall. intros y Hy. apply in_map_iff in Hy as (z & <- & Hz).
  eapply Forall_forall in F; eauto.
Qed.

Lemma filter_perm {A} keep (l l' : list A) :
  Permutation l l' -> Permutation (filter keep l) (filter keep l').
Proof.
  induction 1 as [|x l l' P IH|x y l|l l' l'' P1 IH1 P2 IH2]; simpl; auto.
  - destruct (keep x); auto.
  - destruct (keep x), (keep y); auto. apply perm_swap.
  - now rewrite IH1.
Qed.

Lemma filter_twice {A} (f g : A -> bool) (l : list A) :
  filter f (filter g l) = filter (fun x => g x && f x) l.
Proof.
  induction l as [|a l IH]; simpl; auto.
  destruct (g a); simpl; [destruct (f a); simpl; now rewrite IH|exact IH].
Qed.

Lemma zseq_lower (i : Z) (n : nat) (x : Z) : In x (zseq i n) -> i <= x.
Proof.
  revert i; induction n as [|n IH]; intros i; simpl; [tauto|].
  intros [<-|H]; [lia|]. apply IH in H. lia.
Qed.

Lemma zseq_sorted (i : Z) (n : nat) : StronglySorted Z.le (zseq i n).
Proof.
  revert i; induction n as [|n IH]; intros i; simpl; constructor; auto.
  apply Forall_forall. intros x H. apply zseq_lower in H. lia.
Qed.

(** Two lists in increasing order with the same elements are the same. *)
Lemma sorted_perm_eq (l l' : list Z) :
  StronglySorted Z.le l -> StronglySorted Z.le l' -> Permutation l l' -> l = l'.
Proof.
  intros S. revert l'. induction S as [|a l S IH F]; intros l' S' P.
  - apply Permutation_nil in P. now subst.
  - destruct S' as [|b l' S' F'];
      [apply Permutation_sym, Permutation_nil in P; discriminate|].
    assert (a = b).
    { assert (Ia : In a (b :: l')) by (eapply Permutation_in; [exact P|now left]).
      assert (Ib : In b (a :: l))
        by (eapply Permutation_in; [symmetry; exact P|now left]).
      destruct Ia as [->|Ia]; [reflexivity|].
      destruct Ib as [->|Ib]; [reflexivity|].
      eapply Forall_forall in F; [|exact Ib].
      eapply Forall_forall in F'; [|exact Ia]. lia. }
    subst b. f_equal. apply IH; [exact S'|].
    now apply Permutation_cons_inv in P.
Qed.

(** With I1, the page of a doctor shows the queue of each date in order: the
    positions of the appointments of a date read 1, 2, ..., N down the
    page. *)
Theorem doctor_page_queue (st : state) (current_user : User) (s : string) :
  I1 st ->
  map appointment_number
      (filter (fun a => String.eqb (date a) s) (doctor_dashboard_get st current_user))
  = zseq 1 (List.length (filter (in_partition (user_id current_user) s)
                                (appointments st))).
Proof.
  intros H. apply sorted_perm_eq.
  - apply map_sorted, filter_sorted, sort_by_number_sorted.
  - apply zseq_sorted.
  - etransitivity; [|apply (H (user_id current_user) s)].
    unfold partition_numbers. apply Permutation_map.
    unfold doctor_dashboard_get.
    etransitivity; [apply filter_perm; symmetry; apply sort_rows_perm|].
    rewrite filter_twice.
    erewrite filter_ext; [reflexivity|].
    intros a. unfold in_partition.
    destruct (doctor_id a =? user_id current_user), (status_eqb (status a) Pending),
      (String.eqb (date a) s); reflexivity.
Qed.

Lemma doctor_page_queue_witness :
  map appointment_number
      (filter (fun a => String.eqb (date a) "2026-11-05")
              (doctor_dashboard_get
                 (doctor_dashboard_post st_two_doctors dr_smith 2 "rest") dr_smith))
  = zseq 1 (List.length
              (filter (in_partition (user_id dr_smith) "2026-11-05")
                      (appointments
                         (doctor_dashboard_post st_two_doctors dr_smith 2 "rest")))).
Proof.
  apply doctor_page_queue.
  apply completion_preserves_I1.
  - intros r G. vm_compute in G. injection G as <-. reflexivity.
  - change st_two_doctors with
      (snd (patient_dashboard_post
              (snd (patient_dashboard_post
                      (snd (patient_dashboard_post st_empty clk_morning 100 7 1
                                                   "2026-11-05"))
                      clk_morning 101 8 1 "2026-11-05"))
              clk_morning 102 9 1 "2026-11-05")).
    do 3 apply booking_preserves_I1. now apply I1_no_appointments.
Defined.

(** The row that a completion has written. *)
Lemma completion_row st current_user id text r :
  get_appointment id (appointments st) = Some r ->
  row_at (appointments (doctor_dashboard_post st current_user id text)) r
  = complete text (row_at (appointments st) r).
Proof.
  intros G. pose proof (get_appointment_spec _ _ _ G) as [Hr _].
  unfold doctor_dashboard_post. rewrite G. simpl.
  rewrite reindex_not_pending; rewrite update_row_same by assumption;
    [reflexivity|discriminate].
Qed.

Lemma row_at_In (l : list Appointment) r : (r < List.length l)%nat -> In (row_at l r) l.
Proof. intros H. now apply nth_In. Qed.

Lemma completion_length st current_user id text :
  List.length (appointments (doctor_dashboard_post st current_user id text))
  = List.length (appointments st).
Proof.
  unfold doctor_dashboard_post.
  destruct (get_appointment id (appointments st)); [|reflexivity].
  simpl. unfold reindex_appointments.
  now rewrite reindex_loop_length, update_row_length.
Qed.

(** An appointment that a doctor completes leaves the pages of the doctors
    and comes on the page of the pharmacist, with the prescription given. *)
Theorem completed_goes_to_pharmacist (st : state) (current_user : User) (id : Z)
    (text : string) (r : row) :
  get_appointment id (appointments st) = Some r ->
  let st' := doctor_dashboard_post st current_user id text in
  let a := row_at (appointments st') r in
  appt_id a = id /\ prescription a = Some text /\
  In a (pharmacist_dashboard_get st') /\
  forall doctor, ~ In a (doctor_dashboard_get st' doctor).
Proof.
  intros G st' a.
  pose proof (get_appointment_spec _ _ _ G) as [Hr Hid].
  assert (E : a = complete text (row_at (appointments st) r))
    by (now apply completion_row).
  split; [now rewrite E|]. split; [now rewrite E|]. split.
  - apply sort_rows_In. apply filter_In. split; [|now rewrite E].
    apply row_at_In. unfold st'. now rewrite completion_length.
  - intros doctor H. apply sort_rows_In, filter_In in H as [_ H].
    rewrite E in H. simpl in H. now rewrite andb_false_r in H.
Qed.

Lemma completed_goes_to_pharmacist_witness :
  In (row_at (appointments (doctor_dashboard_post st_two_doctors dr_smith 2 "rest")) 1)
     (pharmacist_dashboard_get (doctor_dashboard_post st_two_doctors dr_smith 2 "rest")).
Proof.
  apply (completed_goes_to_pharmacist st_two_doctors dr_smith 2 "rest" 1 eq_refl).
Defined.

(** An appointment just booked is on the page of the patient and on the page
    of the doctor. *)
Theorem booked_appears_on_pages (st st' : state) (clk : clock)
    (utcnow patient doctor : Z) (s : string) (a : Appointment) :
  patient_dashboard_post st clk utcnow patient doctor s = (Booked a, st') ->
  In a (patient_dashboard_appointments st' patient) /\
  forall u, user_id u = doctor -> In a (doctor_dashboard_get st' u).
Proof.
  unfold patient_dashboard_post. intros B.
  destruct (get_user st doctor) as [d|]; [|discriminate].
  destruct (is_date_available clk d s) as [[|]|]; try discriminate.
  destruct (existsb _ _); [discriminate|].
  destruct (max_patients d <=? _); [discriminate|].
  injection B as <- <-. split.
  - apply sort_rows_In, filter_In. simpl. split; [|apply Z.eqb_refl].
    apply in_or_app. right. now left.
  - intros u <-. apply sort_rows_In, filter_In. simpl. split.
    + apply in_or_app. right. now left.
    + now rewrite Z.eqb_refl.
Qed.

Lemma booked_appears_on_pages_witness :
  In (mkAppointment 1 1 7 1 "2026-11-05" Pending None "Not Processed" "09:00 AM" 100)
     (patient_dashboard_appointments
        (snd (patient_dashboard_post st_empty clk_morning 100 7 1 "2026-11-05")) 7).
Proof.
  apply (booked_appears_on_pages st_empty _ clk_morning 100 7 1 "2026-11-05" _ eq_refl).
Defined.

(** ** The form of the pharmacist *)

Lemma update_row_filter_map {B} keep (g : Appointment -> B) r f (l : list Appointment) :
  (forall a, keep (f a) = keep a) -> (forall a, g (f a) = g a) ->
  map g (filter keep (update_row r f l)) = map g (filter keep l).
Proof.
  intros K G. revert r; induction l as [|a l IH]; intros [|r]; simpl; auto.
  - rewrite K. destruct (keep a); simpl; [now rewrite G|reflexivity].
  - destruct (keep a); simpl; now rewrite IH.
Qed.

Lemma update_row_filter_length keep r f (l : list Appointment) :
  (forall a, keep (f a) = keep a) ->
  List.length (filter keep (update_row r f l)) = List.length (filter keep l).
Proof.
  intros K.
  rewrite <- (length_map (fun _ => tt) (filter keep (update_row r f l))).
  rewrite (update_row_filter_map keep (fun _ => tt) r f l K) by reflexivity.
  apply length_map.
Qed.

(** The form of the pharmacist writes the pharmacy status of the appointment
    named and nothing else: no row is added or removed, no other column and no
    other row changes, an unknown id changes nothing, and I1, I2 and I3 are
    kept. *)
Theorem pharmacist_post_frame (st : state) (id : Z) (text : string) :
  let st' := pharmacist_dashboard_post st id text in
  users st' = users st /\
  map (set_pharmacy_status "") (appointments st')
  = map (set_pharmacy_status "") (appointments st) /\
  (forall r, get_appointment id (appointments st) = Some r ->
             pharmacy_status (row_at (appointments st') r) = text /\
             forall j, j <> r ->
                       row_at (appointments st') j = row_at (appointments st) j) /\
  (get_appointment id (appointments st) = None -> st' = st) /\
  (I1 st -> I1 st') /\ (I2 st -> I2 st') /\ (I3 st -> I3 st').
Proof.
  intros st'. unfold st', pharmacist_dashboard_post.
  destruct (get_appointment id (appointments st)) as [r|] eqn:G; simpl.
  - pose proof (get_appointment_spec _ _ _ G) as [Hr _].
    split; [reflexivity|]. split; [now apply update_row_map|].
    split; [intros r' [= <-]; split;
            [now rewrite update_row_same|intros j Hj; now apply update_row_other]|].
    split; [discriminate|]. split; [|split].
    + intros H d s. unfold contiguous, partition_numbers. simpl.
      rewrite (update_row_filter_map (in_partition d s) appointment_number)
        by reflexivity.
      rewrite update_row_filter_length by reflexivity. apply H.
    + intros H p d s. simpl.
      rewrite update_row_filter_length by reflexivity. apply H.
    + intros H d s I. unfold pending_count. simpl.
      rewrite update_row_filter_length by reflexivity. now apply H.
  - repeat split; auto; discriminate.
Qed.

(** ** Prescriptions and estimates *)

Lemma update_row_Forall (P : Appointment -> Prop) r f (l : list Appointment) :
  (forall a, P a -> P (f a)) -> Forall P l -> Forall P (update_row r f l).
Proof.
  intros H F. revert r; induction F as [|a l Pa F IH]; intros [|r]; simpl;
    constructor; auto.
Qed.

Lemma reindex_loop_Forall (P : Appointment -> Prop) doctor rs i (l : list Appointment) :
  (forall k a, P a -> P (renumber doctor k a)) ->
  Forall P l -> Forall P (reindex_loop doctor rs i l).
Proof.
  intros H. revert i l; induction rs as [|r rs IH]; intros i l F; simpl; auto.
  apply IH. apply update_row_Forall; auto.
Qed.

Lemma handle_any_users ratio st req : users (handle_any ratio st req) = users st.
Proof.
  destruct req as [req|id text]; simpl; [apply handle_users|].
  unfold pharmacist_dashboard_post. now destruct (get_appointment _ _).
Qed.

Lemma run_any_users ratio reqs st : users (run_any ratio st reqs) = users st.
Proof.
  unfold run_any. revert st; induction reqs as [|req reqs IH]; intros st; simpl; auto.
  now rewrite IH, handle_any_users.
Qed.

Lemma handle_any_prescribed ratio st req :
  prescribed_when_completed st -> prescribed_when_completed (handle_any ratio st req).
Proof.
  unfold prescribed_when_completed. intros H.
  set (P := fun a => has_prescription a = true <-> status a = Completed) in *.
  assert (F : Forall P (appointments st)) by (now apply Forall_forall).
  assert (N : forall utcnow q p d s e,
             Forall P (appointments st ++
                       [new_appointment (appointments st) utcnow q p d s e])).
  { intros. apply Forall_app. split; [exact F|].
    repeat constructor; simpl; discriminate. }
  apply Forall_forall.
  destruct req as [[clk utcnow patient doctor s|day utcnow patient heard|cu id text]
                  |id text]; simpl.
  - unfold patient_dashboard_post.
    destruct (get_user st doctor) as [d|]; [|exact F].
    destruct (is_date_available clk d s) as [[|]|]; try exact F.
    destruct (existsb _ _); [exact F|].
    destruct (max_patients d <=? _); [exact F|apply N].
  - unfold voice_turn.
    destruct heard as [t|]; [|exact F].
    destruct (existsb _ _); [exact F|].
    destruct (match_doctor_name _ _ _) as [[d|]|]; try exact F.
    destruct (resolve_relative_date _ _) as [ds|]; [|exact F].
    destruct (max_patients d <=? _); [exact F|apply N].
  - unfold doctor_dashboard_post.
    destruct (get_appointment id (appointments st)) as [r|]; [|exact F].
    simpl. apply reindex_loop_Forall; [intros k a Pa; exact Pa|].
    apply update_row_Forall; [|exact F].
    intros a _. unfold P. simpl. split; reflexivity.
  - unfold pharmacist_dashboard_post.
    destruct (get_appointment id (appointments st)) as [r|]; [|exact F].
    simpl. apply update_row_Forall; [|exact F]. intros a Pa. exact Pa.
Qed.

(** Through every sequence of requests of the three roles, a prescription is
    attached to the Completed appointments and to no other, so the page of the
    pharmacist shows the Completed appointments, all of them and only
    them. *)
Theorem prescriptions_invariant ratio (reqs : list any_request) (st : state) :
  prescribed_when_completed st ->
  prescribed_when_completed (run_any ratio st reqs) /\
  forall a, In a (pharmacist_dashboard_get (run_any ratio st reqs)) <->
            In a (appointments (run_any ratio st reqs)) /\ status a = Completed.
Proof.
  intros H.
  assert (R : prescribed_when_completed (run_any ratio st reqs)).
  { unfold run_any. revert st H; induction reqs as [|req reqs IH]; intros st H;
      [exact H|].
    simpl. apply IH. now apply handle_any_prescribed. }
  split; [exact R|]. intros a. unfold pharmacist_dashboard_get.
  rewrite sort_rows_In, filter_In. split; intros [I C]; split; auto;
    now apply (R a I).
Qed.

Lemma prescriptions_invariant_witness :
  prescribed_when_completed
    (run_any SequenceMatcher_ratio st_empty
             [Scheduling (BookRequest clk_morning 100 7 1 "2026-11-05");
              Scheduling (CompleteRequest dr_smith 1 "rest");
              Pharmacy 1 "Dispensed"]).
Proof.
  apply (prescriptions_invariant SequenceMatcher_ratio).
  intros a [].
Defined.

(** The rows of a table after [reindex_appointments]: a row as it was, or a
    Pending row of the partition renumbered. *)
Lemma reindex_rows doctor s appts x :
  In x (reindex_appointments doctor s appts) ->
  In x appts \/
  exists a k, In a appts /\ in_partition (user_id doctor) s a = true /\
              x = renumber doctor k a.
Proof.
  intros H. destruct (In_nth _ _ no_row H) as (n & Hn & <-).
  unfold reindex_appointments in Hn. rewrite reindex_loop_length in Hn.
  fold (row_at (reindex_appointments doctor s appts) n).
  destruct (in_dec Nat.eq_dec n (pending_rows (user_id doctor) s appts)) as [I|I].
  - right. destruct (In_nth_error _ _ I) as [k Hk].
    exists (row_at appts n), (1 + Z.of_nat k). split; [now apply row_at_In|]. split.
    + eapply Permutation_in in I; [|symmetry; apply pending_rows_perm].
      now apply select_in_partition.
    + apply reindex_loop_at; [apply pending_rows_NoDup|exact Hk|exact Hn].
  - left. unfold reindex_appointments. fold (pending_rows (user_id doctor) s appts).
    rewrite reindex_loop_other by assumption. now apply row_at_In.
Qed.

Lemma In_update_row r f (l : list Appointment) x :
  In x (update_row r f l) -> In x l \/ x = f (row_at l r).
Proof.
  unfold row_at. revert r; induction l as [|a l IH]; intros [|r]; simpl; auto.
  - intros [<-|H]; auto.
  - intros [<-|H]; auto. destruct (IH r H); auto.
Qed.

Lemma handle_any_estimates ratio st req :
  unique_ids st -> posted_by_user st req ->
  estimates_consistent st -> estimates_consistent (handle_any ratio st req).
Proof.
  intros U B H.
  assert (N : forall utcnow p d s,
             In d (users st) ->
             estimates_consistent
               (mkState (users st)
                  (appointments st ++
                   [new_appointment (appointments st) utcnow
                      (pending_count (user_id d) s (appointments st) + 1) p (user_id d) s
                      (calculate_estimated_time d
                         (pending_count (user_id d) s (appointments st) + 1))]))).
  { intros utcnow p d s Id a d0 I P G. simpl in I.
    apply in_app_or in I as [I|[<-|[]]]; [now apply (H a d0)|].
    simpl in *. unfold get_user in G. simpl in G.
    change (get_user st (user_id d) = Some d0) in G.
    rewrite (get_user_unique st d U Id) in G. now injection G as <-. }
  destruct req as [[clk utcnow patient doctor s|day utcnow patient heard|cu id text]
                  |id text]; simpl.
  - unfold patient_dashboard_post.
    destruct (get_user st doctor) as [d|] eqn:G; [|exact H].
    destruct (is_date_available clk d s) as [[|]|]; try exact H.
    destruct (existsb _ _); [exact H|].
    destruct (max_patients d <=? _); [exact H|]. simpl.
    apply find_some in G as [Id E]. apply Z.eqb_eq in E. subst doctor.
    now apply N.
  - unfold voice_turn.
    destruct heard as [t|]; [|exact H].
    destruct (existsb _ _); [exact H|].
    destruct (match_doctor_name _ _ _) as [[d|]|] eqn:M; try exact H.
    destruct (resolve_relative_date _ _) as [ds|]; [|exact H].
    destruct (max_patients d <=? _); [exact H|]. simpl.
    apply match_doctor_name_In, filter_In in M as [M _]. now apply N.
  - simpl in B. unfold doctor_dashboard_post.
    destruct (get_appointment id (appointments st)) as [r|]; [|exact H].
    intros a d I P G. simpl in *.
    change (get_user st (doctor_id a) = Some d) in G.
    apply reindex_rows in I as [I|(a0 & k & I & K & ->)].
    + apply In_update_row in I as [I| ->]; [now apply (H a d)|discriminate].
    + simpl in *. apply in_partition_iff in K as (K & _).
      rewrite K, (get_user_unique st cu U B) in G. now injection G as <-.
  - unfold pharmacist_dashboard_post.
    destruct (get_appointment id (appointments st)) as [r|]; [|exact H].
    intros a d I P G. simpl in *.
    change (get_user st (doctor_id a) = Some d) in G.
    apply In_update_row in I as [I| ->]; [now apply (H a d)|].
    simpl in *. apply (H (row_at (appointments st) r) d); auto.
    destruct (Nat.lt_ge_cases r (List.length (appointments st))) as [L|L].
    + now apply row_at_In.
    + unfold row_at in P. rewrite nth_overflow in P by assumption. discriminate.
Qed.

(** Through every sequence of requests, with distinct user ids and every
    completion posted by a user of the table, the estimated time of every
    Pending appointment is the estimate of its doctor at its queue
    position. *)
Theorem estimates_invariant ratio (reqs : list any_request) (st : state) :
  unique_ids st -> Forall (posted_by_user st) reqs ->
  estimates_consistent st -> estimates_consistent (run_any ratio st reqs).
Proof.
  unfold run_any. revert st; induction reqs as [|req reqs IH]; intros st U F H;
    [exact H|].
  inversion F as [|? ? B F']; subst. simpl. apply IH.
  - unfold unique_ids. now rewrite handle_any_users.
  - eapply Forall_impl; [|exact F']. intros r.
    unfold posted_by_user. now rewrite handle_any_users.
  - now apply handle_any_estimates.
Qed.

Lemma estimates_invariant_witness :
  estimates_consistent
    (run_any SequenceMatcher_ratio st_empty
             [Scheduling (BookRequest clk_morning 100 7 1 "2026-11-05");
              Scheduling (BookRequest clk_morning 101 8 1 "2026-11-05");
              Scheduling (CompleteRequest dr_smith 1 "rest")]).
Proof.
  apply (estimates_invariant SequenceMatcher_ratio).
  - unfold unique_ids. simpl. repeat constructor; simpl; intuition discriminate.
  - repeat constructor.
  - intros a d [].
Defined.

(** ** A voice session *)

Lemma voice_turn_cases ratio st day utcnow patient heard :
  (snd (voice_turn ratio st day utcnow patient heard) = st /\
   forall a, fst (voice_turn ratio st day utcnow patient heard) <> VoiceBooked a) \/
  (exists d text ds,
      heard = Some text /\
      match_doctor_name ratio (doctors_of st) (lower text) = Returned (Some d) /\
      resolve_relative_date (lower text) day = Some ds /\
      pending_count (user_id d) (str_date ds) (appointments st) < max_patients d /\
      let a := new_appointment (appointments st) utcnow
                 (pending_count (user_id d) (str_date ds) (appointments st) + 1) patient
                 (user_id d) (str_date ds)
                 (calculate_estimated_time d
                    (pending_count (user_id d) (str_date ds) (appointments st) + 1)) in
      voice_turn ratio st day utcnow patient heard
      = (VoiceBooked a, mkState (users st) (appointments st ++ [a]))).
Proof.
  unfold voice_turn.
  destruct heard as [text|]; [|left; split; [reflexivity|discriminate]].
  destruct (existsb _ _); [left; split; [reflexivity|discriminate]|].
  destruct (match_doctor_name _ _ _) as [[d|]|] eqn:M;
    try (left; split; [reflexivity|discriminate]).
  destruct (resolve_relative_date _ _) as [ds|] eqn:R;
    [|left; split; [reflexivity|discriminate]].
  destruct (Z.leb_spec (max_patients d)
              (pending_count (user_id d) (str_date ds) (appointments st))) as [L|L];
    [left; split; [reflexivity|discriminate]|].
  right. exists d, text, ds.
  split; [reflexivity|]. split; [exact M|]. split; [exact R|].
  split; [exact L|reflexivity].
Qed.

(** An appointment booked by voice is with a user of the table whose role is
    doctor and who has room on the date, which is the day of the turn or the
    next; it is for the patient of the session, Pending, numbered one past the
    Pending count, and it is the one row added. *)
Theorem voice_booking_sound (ratio : string -> string -> pyfloat) (st st' : state)
    (day : pydate) (utcnow patient : Z) (heard : option string) (a : Appointment) :
  voice_turn ratio st day utcnow patient heard = (VoiceBooked a, st') ->
  st' = mkState (users st) (appointments st ++ [a]) /\
  patient_id a = patient /\ status a = Pending /\ prescription a = None /\
  (exists d, In d (users st) /\ role d = "doctor" /\ doctor_id a = user_id d /\
             pending_count (user_id d) (date a) (appointments st) < max_patients d /\
             appointment_number a
             = pending_count (user_id d) (date a) (appointments st) + 1 /\
             estimated_time a = calculate_estimated_time d (appointment_number a)) /\
  (date a = str_date day \/
   exists next, plus_one_day day = Some next /\ date a = str_date next).
Proof.
  intros E.
  destruct (voice_turn_cases ratio st day utcnow patient heard)
    as [[_ N]|(d & text & ds & -> & M & R & L & E0)].
  - rewrite E in N. now elim (N a).
  - cbv zeta in E0. rewrite E in E0. injection E0 as -> ->.
    split; [reflexivity|]. cbn [patient_id status prescription new_appointment].
    split; [reflexivity|]. split; [reflexivity|]. split; [reflexivity|].
    split.
    + exists d. apply match_doctor_name_In, filter_In in M as [I Rl].
      apply String.eqb_eq in Rl.
      cbn [doctor_id date appointment_number estimated_time new_appointment].
      auto 10.
    + cbn [date new_appointment].
      unfold resolve_relative_date in R.
      destruct (contains "tomorrow" (lower text)).
      * right. exists ds. auto.
      * destruct (contains "today" (lower text) || contains "aaj" (lower text)).
        -- left. now injection R as ->.
        -- right. exists ds. auto.
Qed.

Lemma voice_booking_sound_witness :
  patient_id (mkAppointment 2 1 9 1 "2026-11-04" Pending None "Not Processed"
                            "09:00 AM" 200) = 9 /\
  status (mkAppointment 2 1 9 1 "2026-11-04" Pending None "Not Processed"
                        "09:00 AM" 200) = Pending.
Proof.
  assert (E : voice_turn SequenceMatcher_ratio st_booked (mkDate 2026 11 4) 200 9
                         (Some "book doctor smith today")
              = (VoiceBooked (mkAppointment 2 1 9 1 "2026-11-04" Pending None
                                            "Not Processed" "09:00 AM" 200),
                 mkState (users st_booked)
                         (appointments st_booked ++
                          [mkAppointment 2 1 9 1 "2026-11-04" Pending None
                                         "Not Processed" "09:00 AM" 200])))
    by (vm_compute; reflexivity).
  destruct (voice_booking_sound SequenceMatcher_ratio st_booked _ (mkDate 2026 11 4)
              200 9 (Some "book doctor smith today") _ E) as (_ & P & S & _).
  split; [exact P|exact S].
Defined.

(** A voice session creates at most one appointment: the loop ends on a stop
    word or when what is heard runs out, the state as it was, or on the first
    booking, which adds one row for the patient of the session. *)
Theorem voice_session_books_once (ratio : string -> string -> pyfloat) (st : state)
    (patient : Z) (turns : list (pydate * Z * option string)) :
  let res := recognize_and_book ratio st patient turns in
  (snd res = st /\ (fst res = None \/ fst res = Some SessionStopped)) \/
  (exists a, fst res = Some (VoiceBooked a) /\
             snd res = mkState (users st) (appointments st ++ [a]) /\
             patient_id a = patient /\ status a = Pending).
Proof.
  induction turns as [|[[day utcnow] heard] turns IH];
    cbn [recognize_and_book]; [left; auto|].
  destruct (voice_turn_cases ratio st day utcnow patient heard)
    as [[S N]|(d & text & ds & -> & _ & _ & _ & E)].
  - destruct (voice_turn ratio st day utcnow patient heard) as [o st1] eqn:E.
    cbn [fst snd] in S, N. subst st1.
    destruct o; try exact IH; [left; auto|now elim (N a)].
  - cbv zeta in E. rewrite E. right. eexists. cbn [fst snd].
    split; [reflexivity|]. split; [reflexivity|]. split; reflexivity.
Qed.

(** ** [normalize_text] *)












Lemma rev_string_append (s : string) :
  forall acc, rev_string acc s = (rev_string "" s ++ acc)%string.
Proof.
  induction s as [|c s IH]; intros acc; simpl; [reflexivity|].
  rewrite (IH (String c acc)), (IH (String c "")).
  now rewrite append_assoc.
Qed.

Lemma rev_string_app (a b : string) :
  rev_string "" (a ++ b) = (rev_string "" b ++ rev_string "" a)%string.
Proof.
  induction a as [|c a IH]; simpl; [now rewrite append_empty_r|].
  rewrite (rev_string_append (a ++ b) (String c "")), IH.
  rewrite (rev_string_append a (String c "")).
  now rewrite append_assoc.
Qed.

Lemma rev_string_involutive (s : string) : rev_string "" (rev_string "" s) = s.
Proof.
  induction s as [|c s IH]; simpl; [reflexivity|].
  rewrite (rev_string_append s (String c "")), rev_string_app, IH. reflexivity.
Qed.





(** ** Dates written and read *)

Lemma digit_char_spec (n : Z) :
  is_digit (digit_char n) = true /\ digit_value (digit_char n) = n mod 10 /\
  Ascii.eqb "-" (digit_char n) = false.
Proof.
  unfold digit_char.
  assert (H : 0 <= n mod 10 < 10) by (apply Z.mod_pos_bound; lia).
  assert (C : n mod 10 = 0 \/ n mod 10 = 1 \/ n mod 10 = 2 \/ n mod 10 = 3 \/
              n mod 10 = 4 \/ n mod 10 = 5 \/ n mod 10 = 6 \/ n mod 10 = 7 \/
              n mod 10 = 8 \/ n mod 10 = 9) by lia.
  repeat destruct C as [C|C]; rewrite C; repeat split; reflexivity.
Qed.

(** A piece with no dash in it is read whole, up to the next dash or to the
    end. *)
Lemma split_from_piece (a : string) :
  all_chars (fun c => negb (Ascii.eqb "-" c)) a = true ->
  forall cur rest,
    split_from "-" (a ++ String "-" rest) cur 0
    = rev_string "" (rev_string cur a) :: split_from "-" rest "" 0.
Proof.
  induction a as [|c a IH]; intros A cur rest.
  - reflexivity.
  - cbn [all_chars] in A. apply andb_true_iff in A as [A1 A2].
    apply negb_true_iff in A1.
    cbn [append split_from startswith]. rewrite A1. cbn [andb].
    now rewrite IH.
Qed.

Lemma split_from_last (a : string) :
  all_chars (fun c => negb (Ascii.eqb "-" c)) a = true ->
  forall cur, split_from "-" a cur 0 = [rev_string "" (rev_string cur a)].
Proof.
  induction a as [|c a IH]; intros A cur.
  - reflexivity.
  - cbn [all_chars] in A. apply andb_true_iff in A as [A1 A2].
    apply negb_true_iff in A1.
    cbn [split_from startswith]. rewrite A1. cbn [andb].
    now rewrite IH.
Qed.

Lemma digits_no_dash2 (n : Z) :
  all_chars (fun c => negb (Ascii.eqb "-" c)) (two_digits n) = true.
Proof.
  unfold two_digits. cbn [all_chars].
  destruct (digit_char_spec (n / 10)) as (_ & _ & ->).
  destruct (digit_char_spec n) as (_ & _ & ->). reflexivity.
Qed.

Lemma digits_no_dash4 (n : Z) :
  all_chars (fun c => negb (Ascii.eqb "-" c)) (four_digits n) = true.
Proof.
  unfold four_digits. cbn [all_chars].
  destruct (digit_char_spec (n / 1000)) as (_ & _ & ->).
  destruct (digit_char_spec (n / 100)) as (_ & _ & ->).
  destruct (digit_char_spec (n / 10)) as (_ & _ & ->).
  destruct (digit_char_spec n) as (_ & _ & ->). reflexivity.
Qed.

Lemma split_str_date (d : pydate) :
  split "-" (str_date d)
  = [four_digits (year d); two_digits (month d); two_digits (day d)].
Proof.
  unfold split, str_date.
  change ("-" ++ two_digits (month d) ++ "-" ++ two_digits (day d))%string
    with (String "-" (two_digits (month d) ++ String "-" (two_digits (day d))))%string.
  rewrite split_from_piece by apply digits_no_dash4.
  rewrite split_from_piece by apply digits_no_dash2.
  rewrite split_from_last by apply digits_no_dash2.
  now rewrite !rev_string_involutive.
Qed.

Lemma year_of_four_digits (y : Z) :
  0 <= y <= 9999 -> year_of (list_ascii_of_string (four_digits y)) = Some y.
Proof.
  intros H. unfold four_digits, year_of. cbn [list_ascii_of_string].
  destruct (digit_char_spec (y / 1000)) as (-> & -> & _).
  destruct (digit_char_spec (y / 100)) as (-> & -> & _).
  destruct (digit_char_spec (y / 10)) as (-> & -> & _).
  destruct (digit_char_spec y) as (-> & -> & _).
  cbn [andb]. f_equal. Z.div_mod_to_equations. lia.
Qed.

Lemma two_digits_value (n : Z) :
  0 <= n <= 99 ->
  digit_value (digit_char (n / 10)) * 10 + digit_value (digit_char n) = n.
Proof.
  intros H.
  destruct (digit_char_spec (n / 10)) as (_ & -> & _).
  destruct (digit_char_spec n) as (_ & -> & _).
  Z.div_mod_to_equations. lia.
Qed.

Lemma month_of_two_digits (m : Z) :
  1 <= m <= 12 -> month_of (list_ascii_of_string (two_digits m)) = Some m.
Proof.
  intros H. unfold two_digits, month_of. cbn [list_ascii_of_string].
  rewrite two_digits_value by lia.
  destruct (digit_char_spec (m / 10)) as (-> & _ & _).
  destruct (digit_char_spec m) as (-> & _ & _). cbn [andb].
  assert ((1 <=? m) = true) as -> by (apply Z.leb_le; lia).
  assert ((m <=? 12) = true) as -> by (apply Z.leb_le; lia).
  reflexivity.
Qed.

Lemma day_of_two_digits (n : Z) :
  1 <= n <= 31 -> day_of (list_ascii_of_string (two_digits n)) = Some n.
Proof.
  intros H. unfold two_digits, day_of. cbn [list_ascii_of_string].
  rewrite two_digits_value by lia.
  destruct (digit_char_spec (n / 10)) as (-> & _ & _).
  destruct (digit_char_spec n) as (-> & _ & _). cbn [andb].
  assert ((1 <=? n) = true) as -> by (apply Z.leb_le; lia).
  assert ((n <=? 31) = true) as -> by (apply Z.leb_le; lia).
  reflexivity.
Qed.

Lemma days_in_month_bounds (y m : Z) : 28 <= days_in_month y m <= 31.
Proof.
  unfold days_in_month.
  destruct (m =? 2); [destruct (is_leap y); lia|].
  destruct ((m =? 4) || (m =? 6) || (m =? 9) || (m =? 11)); lia.
Qed.

Lemma valid_date_bounds (d : pydate) :
  valid_date d = true ->
  1 <= year d <= 9999 /\ 1 <= month d <= 12 /\
  1 <= day d <= days_in_month (year d) (month d).
Proof.
  unfold valid_date. rewrite !andb_true_iff, !Z.leb_le. tauto.
Qed.

Lemma strptime_str_date (d : pydate) :
  valid_date d = true -> strptime_date (str_date d) = Some d.
Proof.
  intros V. pose proof (valid_date_bounds d V) as (Hy & Hm & Hd).
  pose proof (days_in_month_bounds (year d) (month d)).
  unfold strptime_date. rewrite split_str_date.
  rewrite year_of_four_digits, month_of_two_digits, day_of_two_digits by lia.
  destruct d as [y m dd]. simpl in *. now rewrite V.
Qed.

Lemma plus_one_day_valid (d n : pydate) :
  valid_date d = true -> plus_one_day d = Some n -> valid_date n = true.
Proof.
  intros V. pose proof (valid_date_bounds d V) as (Hy & Hm & Hd).
  unfold plus_one_day.
  destruct (Z.ltb_spec (day d) (days_in_month (year d) (month d))) as [L|L].
  - intros [= <-]. unfold valid_date. simpl.
    rewrite !andb_true_iff, !Z.leb_le. lia.
  - destruct (Z.ltb_spec (month d) 12) as [M|M].
    + intros [= <-]. unfold valid_date. simpl.
      pose proof (days_in_month_bounds (year d) (month d + 1)).
      rewrite !andb_true_iff, !Z.leb_le. lia.
    + destruct (Z.ltb_spec (year d) 9999) as [Y|Y]; [|discriminate].
      intros [= <-]. unfold valid_date. simpl.
      pose proof (days_in_month_bounds (year d + 1) 1).
      rewrite !andb_true_iff, !Z.leb_le. lia.
Qed.

(** The date that the voice path stores is read back by the date check of
    the dashboard: for a day [d] of the calendar, [strptime] reads [str(d)] as
    [d], and so it does for the day after, so [is_date_available] does not
    raise on either. *)
Theorem str_date_round_trip (d : pydate) :
  valid_date d = true ->
  strptime_date (str_date d) = Some d /\
  (forall n, plus_one_day d = Some n -> strptime_date (str_date n) = Some n) /\
  (forall command n clk doctor,
      resolve_relative_date command d = Some n ->
      is_date_available clk doctor (str_date n) <> Raised).
Proof.
  intros V.
  assert (N : forall n, plus_one_day d = Some n -> strptime_date (str_date n) = Some n)
    by (intros n P; apply strptime_str_date; eapply plus_one_day_valid; eauto).
  split; [now apply strptime_str_date|]. split; [exact N|].
  intros command n clk doctor R.
  assert (E : strptime_date (str_date n) = Some n).
  { unfold resolve_relative_date in R.
    destruct (contains "tomorrow" command); [now apply N|].
    destruct (contains "today" command || contains "aaj" command); [|now apply N].
    injection R as <-. now apply strptime_str_date. }
  unfold is_date_available. rewrite E.
  destruct (date_ltb n (today clk)); [discriminate|].
  destruct (date_eqb n (today clk)); [|discriminate].
  destruct (window_end doctor); discriminate.
Qed.

Lemma str_date_round_trip_witness :
  strptime_date (str_date (mkDate 2024 2 28)) = Some (mkDate 2024 2 28) /\
  strptime_date (str_date (mkDate 2024 2 29)) = Some (mkDate 2024 2 29).
Proof.
  destruct (str_date_round_trip (mkDate 2024 2 28) eq_refl) as (H1 & H2 & _).
  split; [exact H1|]. apply H2. reflexivity.
Defined.

(** ** More on accounts and estimates *)

Lemma find_by_email_first (accts : list Account) (address : string) (b : Account) :
  find_by_email accts address = None ->
  email b = address ->
  forall more, find_by_email (accts ++ b :: more) address = Some b.
Proof.
  intros F <- more. unfold find_by_email in *.
  induction accts as [|c l IH]; simpl in *.
  - now rewrite String.eqb_refl.
  - destruct (String.eqb (email c) (email b)); [discriminate|now apply IH].
Qed.

(** An address registers once: after a registration has succeeded, a
    registration with the same address, in whatever case it is typed, is
    refused with EmailTaken and adds no user. *)
Theorem second_registration_refused (hash : string -> string -> string)
    (accts accts' : list Account) (salt nm em pw rl : string) (sp : option string)
    (a : Account) (salt' nm' em' pw' rl' : string) (sp' : option string) :
  register hash accts salt nm em pw rl sp = (Registered a, accts') ->
  lower em' = lower em ->
  register hash accts' salt' nm' em' pw' rl' sp' = (EmailTaken, accts').
Proof.
  unfold register. intros R E. rewrite E.
  destruct (valid_email (lower em)) eqn:V; simpl in *; [|discriminate].
  destruct (find_by_email accts (lower em)) eqn:F; [discriminate|].
  injection R as <- <-.
  erewrite (find_by_email_first accts (lower em) _ F); reflexivity.
Qed.

Lemma second_registration_refused_witness :
  register (fun _ pw => pw)
           (snd (register (fun _ pw => pw) [] "s1" "John Smith" "john@clinic.org" "pw"
                          "doctor" None))
           "s2" "Another" "John@Clinic.ORG" "other" "patient" None
  = (EmailTaken,
     snd (register (fun _ pw => pw) [] "s1" "John Smith" "john@clinic.org" "pw"
                   "doctor" None)).
Proof.
  eapply (second_registration_refused (fun _ pw => pw) [] _ "s1" "John Smith"
                                      "john@clinic.org" "pw" "doctor" None);
    reflexivity.
Defined.

(** While the estimates stay before midnight, a later place in the queue of a
    doctor with a positive consultation time has a later estimate, later by
    the consultation time for each place. *)
Theorem estimates_increase (d : User) (s p q : Z) :
  window_start d = Some s -> 0 < avg_consult_time d -> 1 <= p -> p < q ->
  s + (q - 1) * avg_consult_time d < 1440 ->
  exists m m',
    estimated_minute d p = Some m /\ estimated_minute d q = Some m' /\
    m < m' /\ m' - m = (q - p) * avg_consult_time d.
Proof.
  intros W A P Q B.
  pose proof (window_start_range _ _ W) as Hs.
  assert (E : forall k, 1 <= k <= q ->
              estimated_minute d k = Some (s + (k - 1) * avg_consult_time d)).
  { intros k Hk. unfold estimated_minute, estimated_dt. rewrite W.
    assert (R : 0 <= s + (k - 1) * avg_consult_time d < 1440) by nia.
    rewrite add_minutes_representable.
    - now rewrite Z.mod_small.
    - lia.
    - unfold representable, ordinal_1900, max_ordinal.
      rewrite Z.div_small by lia. lia. }
  exists (s + (p - 1) * avg_consult_time d), (s + (q - 1) * avg_consult_time d).
  rewrite !E by lia. repeat split; nia.
Qed.

Lemma estimates_increase_witness :
  exists m m',
    estimated_minute dr_smith 2 = Some m /\ estimated_minute dr_smith 5 = Some m' /\
    m < m' /\ m' - m = (5 - 2) * avg_consult_time dr_smith.
Proof.
  apply (estimates_increase dr_smith 540 2 5); try reflexivity; simpl; lia.
Defined.

(** ** First come, first served *)
















